(** * NumPyRingBuffer: a shallow embedding and its verified properties

    The Python class [NumPyRingBuffer] (src/NumPyRingBuffer.py) keeps a
    one-dimensional numpy array of [2 * max_size] slots and a write counter
    [_index].  Every stored value is written twice, at [i % max_size] and at
    [i % max_size + max_size], so that a window of [max_size] consecutive
    slots can always be read without copying.

    Modelling choices.
    - Python integers are unbounded: [Z].  Python's [%] is floor modulo and
      raises [ZeroDivisionError] on a zero divisor: [py_mod].
    - The numpy array is a [list T] over an arbitrary element type [T]; the
      few numpy operations the class uses ([numpy.empty], integer and slice
      subscription, integer and slice assignment) are modelled in
      [Module NumPy], with Python's rules for negative positions and for
      slice clamping written out.
    - A value that is appended or written is an element, of type [T]; numpy
      stores it in every slot that a slice selects.
    - [numpy.empty] returns uninitialised memory: its contents are an
      argument [mem : nat -> T] of the constructor.
    - Methods mutate [self] and may raise: they live in a state-and-error
      monad [M] in which the state survives an exception, as the object
      survives it in Python. *)

From Stdlib Require Import ZArith Lia.
From stdpp Require Import base tactics option list numbers.

Local Open Scope Z_scope.

(** ** Exceptions and results *)

Inductive exn : Set :=
| ValueError
| IndexError
| TypeError
| AttributeError
| ZeroDivisionError.

Inductive result (A : Type) : Type :=
| Ok (a : A)
| Raise (e : exn).
Arguments Ok {A} a.
Arguments Raise {A} e.

Definition result_bind {A B} (r : result A) (k : A -> result B) : result B :=
  match r with
  | Ok a => k a
  | Raise e => Raise e
  end.

(** Python's [a % b] on integers. *)
Definition py_mod (a b : Z) : result Z :=
  if b =? 0 then Raise ZeroDivisionError else Ok (a mod b).

(** ** The numpy operations used by the class *)

Module NumPy.

(** A Python [slice(start, stop, step)] object; [None] fields are [None]. *)
Record slice : Set := Slice { start : option Z; stop : option Z; step : option Z }.

Section Array.
Context {T : Type}.

Definition len (a : list T) : Z := Z.of_nat (length a).

(** [numpy.empty(n)]: [n] slots of whatever the memory holds; a negative
    dimension is rejected. *)
Definition empty (n : Z) (mem : nat -> T) : result (list T) :=
  if n <? 0 then Raise ValueError
  else Ok (mem <$> seq 0 (Z.to_nat n)).

(** [a[i]] for an integer [i]: a negative [i] counts from the end. *)
Definition norm_index (n i : Z) : result Z :=
  if (i <? - n) || (n <=? i) then Raise IndexError
  else Ok (if i <? 0 then i + n else i).

Definition getitem_int (a : list T) (i : Z) : result T :=
  result_bind (norm_index (len a) i) (fun p =>
    match a !! Z.to_nat p with
    | Some x => Ok x
    | None => Raise IndexError
    end).

(** [a[i] = v]. *)
Definition setitem_int (a : list T) (i : Z) (v : T) : result (list T) :=
  result_bind (norm_index (len a) i) (fun p => Ok (<[Z.to_nat p := v]> a)).

(** [slice.indices(n)]: the clamped start, stop and step. *)
Definition clamp (n lower upper : Z) (x : Z) : Z :=
  if x <? 0 then Z.max (x + n) lower else Z.min x upper.

Definition slice_indices (s : slice) (n : Z) : result (Z * Z * Z) :=
  let st := default 1 (step s) in
  if st =? 0 then Raise ValueError
  else
    let lower := if st <? 0 then -1 else 0 in
    let upper := if st <? 0 then n - 1 else n in
    let b := match start s with
             | None => if st <? 0 then upper else lower
             | Some x => clamp n lower upper x
             end in
    let e := match stop s with
             | None => if st <? 0 then lower else upper
             | Some x => clamp n lower upper x
             end in
    Ok (b, e, st).

(** Number of positions selected by the clamped triple. *)
Definition slice_length (b e st : Z) : Z :=
  if st <? 0 then (if e <? b then (b - e - 1) / (- st) + 1 else 0)
  else (if b <? e then (e - b - 1) / st + 1 else 0).

(** The positions [b], [b + st], ... of a clamped triple. *)
Definition positions (b e st : Z) : list Z :=
  (fun k => b + k * st) <$> seqZ 0 (slice_length b e st).

(** The positions selected by [s] in an array of [n] slots, in order. *)
Definition slice_positions (s : slice) (n : Z) : result (list Z) :=
  result_bind (slice_indices s n) (fun '(b, e, st) => Ok (positions b e st)).

(** [a[s]] for a slice [s]. *)
Definition getitem_slice (a : list T) (s : slice) : result (list T) :=
  result_bind (slice_positions s (len a)) (fun ps =>
    Ok (omap (fun p => a !! Z.to_nat p) ps)).

(** Storing [v] at each of the positions [ps] in turn. *)
Definition fill (a : list T) (ps : list Z) (v : T) : list T :=
  foldl (fun acc p => <[Z.to_nat p := v]> acc) a ps.

(** [a[s] = v] for a slice [s] and a scalar [v], broadcast over [s]. *)
Definition setitem_slice (a : list T) (s : slice) (v : T) : result (list T) :=
  result_bind (slice_positions s (len a)) (fun ps => Ok (fill a ps v)).

End Array.
End NumPy.

(** ** Selectors

    What a caller may put between the brackets of [rb[...]]: an integer, a
    slice, a list or tuple of further objects, or anything else. *)

#[warnings="-register-all"] Inductive pyobj : Set :=
| PyInt (i : Z)
| PySlice (s : NumPy.slice)
| PySeq (l : list pyobj)
| PyOther.

(** What a read returns: one element, or an array of elements. *)
Inductive pyval (T : Type) : Type :=
| Scalar (x : T)
| Array (xs : list T).
Arguments Scalar {T} x.
Arguments Array {T} xs.

(** ** The class *)

Section RingBuffer.
Context {T : Type}.

(** The instance attributes set by [__init__] ([_dtype] is the type [T]). *)
Record NumPyRingBuffer : Type := Build_rb {
  _npa : list T;
  max_size : Z;
  _index : Z
}.

(** State-and-error monad of the methods: the object survives a raise. *)
Definition M (A : Type) : Type := NumPyRingBuffer -> result A * NumPyRingBuffer.

Definition ret {A} (a : A) : M A := fun self => (Ok a, self).

Definition bind {A B} (m : M A) (k : A -> M B) : M B :=
  fun self =>
    match m self with
    | (Ok a, self') => k a self'
    | (Raise e, self') => (Raise e, self')
    end.

Definition raise {A} (e : exn) : M A := fun self => (Raise e, self).
Definition lift {A} (r : result A) : M A := fun self => (r, self).
Definition gets {A} (f : NumPyRingBuffer -> A) : M A := fun self => (Ok (f self), self).
Definition modify (f : NumPyRingBuffer -> NumPyRingBuffer) : M unit :=
  fun self => (Ok tt, f self).

#[global] Instance M_ret : MRet M := @ret.
#[global] Instance M_bind : MBind M := fun A B k m => bind m k.

Definition eval {A} (m : M A) (self : NumPyRingBuffer) : result A := fst (m self).
Definition exec {A} (m : M A) (self : NumPyRingBuffer) : NumPyRingBuffer := snd (m self).

Definition set_npa (a : list T) (self : NumPyRingBuffer) : NumPyRingBuffer :=
  {| _npa := a; max_size := max_size self; _index := _index self |}.
Definition set_index (i : Z) (self : NumPyRingBuffer) : NumPyRingBuffer :=
  {| _npa := _npa self; max_size := max_size self; _index := i |}.

(** [self._npa[p] = v] *)
Definition store_int (p : Z) (v : T) : M unit :=
  a ← gets _npa;
  a' ← lift (NumPy.setitem_int a p v);
  modify (set_npa a').

(** [self._npa[s] = v] *)
Definition store_slice (s : NumPy.slice) (v : T) : M unit :=
  a ← gets _npa;
  a' ← lift (NumPy.setitem_slice a s v);
  modify (set_npa a').

(** [for x in l: body x], stopping at the first exception. *)
Fixpoint for_each {A} (body : A -> M unit) (l : list A) : M unit :=
  match l with
  | [] => ret tt
  | x :: l' => body x;; for_each body l'
  end.

(** [__init__(self, max_size, dtype)]; [mem] is what the uninitialised
    allocation happens to contain. *)
Definition __init__ (max_size : Z) (mem : nat -> T) : result NumPyRingBuffer :=
  result_bind (NumPy.empty (max_size * 2) mem) (fun a =>
    Ok {| _npa := a; max_size := max_size; _index := 0 |}).

Definition append (element : T) : M unit :=
  i ← gets _index;
  ms ← gets max_size;
  k ← lift (py_mod i ms);
  store_int k element;;
  k' ← lift (py_mod i ms);
  store_int (k' + ms) element;;
  modify (fun self => set_index (_index self + 1) self).

Definition getElements : M (list T) :=
  i ← gets _index;
  ms ← gets max_size;
  k ← lift (py_mod i ms);
  k' ← lift (py_mod i ms);
  a ← gets _npa;
  lift (NumPy.getitem_slice a (NumPy.Slice (Some k) (Some (k' + ms)) None)).

Definition isFull : M bool :=
  i ← gets _index;
  ms ← gets max_size;
  ret (ms <=? i).

Definition clear : M unit := modify (set_index 0).

(** The slice branch of [__setitem__]: a missing [start] and a missing
    [stop] both count as 0. *)
Definition write_range (indexs : NumPy.slice) (v : T) : M unit :=
  let istart := default 0 (NumPy.start indexs) in
  let istop := match NumPy.stop indexs with None => 0 | Some e => e end in
  i ← gets _index;
  ms ← gets max_size;
  let start := istart + i in
  let stop := istop + i in
  a ← lift (py_mod start ms);
  b ← lift (py_mod stop ms);
  store_slice (NumPy.Slice (Some a) (Some b) (NumPy.step indexs)) v;;
  a' ← lift (py_mod start ms);
  b' ← lift (py_mod stop ms);
  store_slice
    (NumPy.Slice (Some (a' + ms)) (Some (b' + ms)) (NumPy.step indexs)) v.

(** The integer branches of [__setitem__] (alone, or in a list or tuple). *)
Definition write_index (i0 : Z) (v : T) : M unit :=
  idx ← gets _index;
  ms ← gets max_size;
  let i := i0 + idx in
  k ← lift (py_mod i ms);
  store_int k v;;
  k' ← lift (py_mod i ms);
  store_int (k' + ms) v.

(** The body of the loop of [__setitem__] over a list or tuple [indexs].
    On a slice the first statement is [istart=indexs.start], and [indexs],
    the list or tuple, has no attribute [start]; an element that is neither
    an integer nor a slice is passed over. *)
Definition seq_write (v : T) (i : pyobj) : M unit :=
  match i with
  | PyInt i0 => write_index i0 v
  | PySlice _ => raise AttributeError
  | _ => ret tt
  end.

Definition __setitem__ (indexs : pyobj) (v : T) : M unit :=
  match indexs with
  | PySeq l => for_each (seq_write v) l
  | PyInt i0 => write_index i0 v
  | PySlice sl => write_range sl v
  | PyOther => raise TypeError
  end.

(** The loop of [__getitem__] over a list or tuple, extending [rarray]. *)
Fixpoint read_each (current_array : list T) (l : list pyobj) (rarray : list T)
  : result (list T) :=
  match l with
  | [] => Ok rarray
  | PyInt i0 :: l' =>
      result_bind (NumPy.getitem_int current_array i0) (fun x =>
        read_each current_array l' (rarray ++ [x]))
  | PySlice sl :: l' =>
      result_bind (NumPy.getitem_slice current_array sl) (fun xs =>
        read_each current_array l' (rarray ++ xs))
  | _ :: l' => read_each current_array l' rarray
  end.

Definition __getitem__ (indexs : pyobj) : M (pyval T) :=
  current_array ← getElements;
  match indexs with
  | PySeq l =>
      rarray ← lift (read_each current_array l []);
      ret (Array rarray)
  | PyInt i0 =>
      x ← lift (NumPy.getitem_int current_array i0);
      ret (Scalar x)
  | PySlice sl =>
      xs ← lift (NumPy.getitem_slice current_array sl);
      ret (Array xs)
  | PyOther => raise TypeError
  end.

(** [__getattr__(self, a)]: the array on which attribute [a] is looked up. *)
Definition __getattr__target : M (list T) :=
  i ← gets _index;
  ms ← gets max_size;
  if i <? ms then
    a ← gets _npa;
    lift (NumPy.getitem_slice a (NumPy.Slice None (Some i) None))
  else
    k ← lift (py_mod i ms);
    k' ← lift (py_mod i ms);
    a ← gets _npa;
    lift (NumPy.getitem_slice a (NumPy.Slice (Some k) (Some (k' + ms)) None)).

(** [rb.a()] for a method [a] of the numpy array that only reads it, such
    as [min], [max], [mean], [std] or [sum]: [red] is what that method
    computes on an array.  The source hands out the attribute of a view of
    [_npa]; a method that writes through that view ([fill], [sort], [put])
    is outside this definition. *)
Definition __getattr__ {R} (red : list T -> R) : M R :=
  w ← __getattr__target;
  ret (red w).

Definition __len__ : M Z :=
  isFull ≫= fun full : bool =>
  if full then gets max_size else gets _index.

(** [for e in elements: rb.append(e)] *)
Definition appends (elements : list T) : M unit := for_each append elements.

End RingBuffer.


Arguments NumPyRingBuffer T : clear implicits.
Arguments M T A : clear implicits.

(** ** Vocabulary of the statements *)

Section Vocabulary.
Context {T : Type}.
Implicit Types (self : NumPyRingBuffer T) (v e : T) (a : list T).

(** A buffer as a successful construction with a positive [max_size]
    leaves it, and as every method keeps it: the store has twice
    [max_size] slots. *)
Definition wf self : Prop :=
  0 < max_size self /\ NumPy.len (_npa self) = 2 * max_size self.

(** The store after [self._npa[k] = v; self._npa[k + max_size] = v]. *)
Definition write2 (c k : Z) (v : T) (a : list T) : list T :=
  <[Z.to_nat (k + c) := v]> (<[Z.to_nat k := v]> a).

(** [tracks self vals]: [vals] have been appended since the counter was last
    zero, and each of the newest [max_size] of them sits in its slot and in
    the mirror of that slot. *)
Definition tracks self (vals : list T) : Prop :=
  wf self /\
  _index self = Z.of_nat (length vals) /\
  forall (j : nat) x,
    vals !! j = Some x ->
    Z.of_nat (length vals) - max_size self <= Z.of_nat j ->
    _npa self !! Z.to_nat (Z.of_nat j mod max_size self) = Some x /\
    _npa self !! Z.to_nat (Z.of_nat j mod max_size self + max_size self) = Some x.

(** The newest [c] of [vals] (all of them when there are fewer), oldest
    first. *)
Definition newest (c : Z) (vals : list T) : list T :=
  drop (length vals - Z.to_nat c)%nat vals.

(** Slot [s] and its mirror [s + max_size] hold the same value. *)
Definition mirrored self (s : nat) : Prop :=
  exists x,
    _npa self !! s = Some x /\
    _npa self !! (s + Z.to_nat (max_size self))%nat = Some x.

(** What holds of the mirror after any calls on a buffer constructed with
    capacity [c] over memory [mem]: every slot below the counter, and every
    slot whose two halves were allocated equal, is mirrored. *)
Definition settled (c : Z) (mem : nat -> T) self : Prop :=
  wf self /\ max_size self = c /\
  forall s : nat,
    Z.of_nat s < c ->
    Z.of_nat s < _index self \/ mem s = mem (s + Z.to_nat c)%nat ->
    mirrored self s.

(** A call of a method by a client that goes on after an exception. *)
Inductive call : Type :=
| Append (e : T)
| GetElements
| IsFull
| Clear
| SetItem (indexs : pyobj) (v : T)
| GetItem (indexs : pyobj)
| GetAttr
| Len.

Definition perform (c : call) (self : NumPyRingBuffer T) : NumPyRingBuffer T :=
  match c with
  | Append e => exec (append e) self
  | GetElements => exec getElements self
  | IsFull => exec isFull self
  | Clear => exec clear self
  | SetItem indexs v => exec (__setitem__ indexs v) self
  | GetItem indexs => exec (__getitem__ indexs) self
  | GetAttr => exec __getattr__target self
  | Len => exec __len__ self
  end.

Definition perform_all (cs : list call) (self : NumPyRingBuffer T)
  : NumPyRingBuffer T :=
  foldl (fun s c => perform c s) self cs.

Definition is_clear (c : call) : bool :=
  match c with Clear => true | _ => false end.

Definition is_slice (o : pyobj) : bool :=
  match o with PySlice _ => true | _ => false end.

(** A computation relates every state to the state it leaves. *)
Definition preserves {A} (R : relation (NumPyRingBuffer T)) (m : M T A) : Prop :=
  forall self, R self (exec m self).

(** [max_size] stays and [_index] does not decrease. *)
Definition counter_up : relation (NumPyRingBuffer T) :=
  fun self self' =>
    max_size self' = max_size self /\ _index self <= _index self'.

(** On a well-formed buffer: it stays well formed, the counter stays, and
    every mirrored slot stays mirrored. *)
Definition keeps_mirror : relation (NumPyRingBuffer T) :=
  fun self self' =>
    wf self ->
    wf self' /\ max_size self' = max_size self /\ _index self' = _index self /\
    forall s : nat, Z.of_nat s < max_size self -> mirrored self s -> mirrored self' s.

(** The elements a read has returned, as a list. *)
Definition flat (r : pyval T) : list T :=
  match r with
  | Scalar x => [x]
  | Array xs => xs
  end.

(** The values appended by the calls [cs] since their last [Clear], oldest
    first, after [log]. *)
Definition appended_after (log : list T) (cs : list call) : list T :=
  foldl (fun log c =>
           match c with
           | Append e => log ++ [e]
           | Clear => []
           | _ => log
           end) log cs.

Definition appended (cs : list call) : list T := appended_after [] cs.

Definition is_write (c : call) : bool :=
  match c with SetItem _ _ => true | _ => false end.

(** The position of the store that the integer read [rb[i]] returns:
    position [i], or [max_size + i] for a negative [i], of the window that
    starts at [_index % max_size]. *)
Definition read_position self (i : Z) : Z :=
  _index self mod max_size self + (if i <? 0 then i + max_size self else i).

End Vocabulary.

(** ** Sample data: buffers of integers *)

(** Capacity 3 after appending 1, 2, 3, 4, 5. *)
Definition demo : NumPyRingBuffer Z :=
  {| _npa := [4; 5; 3; 4; 5; 3]; max_size := 3; _index := 5 |}.

(** Memory that happens to be all zero, and memory whose cell [n] holds
    [n]. *)
Definition zeros : nat -> Z := fun _ => 0.
Definition count : nat -> Z := Z.of_nat.

(** The sum of an array, as [numpy.ndarray.sum] computes it on integers. *)
Definition sum (xs : list Z) : Z := foldr Z.add 0 xs.

(** [slice(start, stop)] *)
Definition range (start stop : Z) : NumPy.slice :=
  NumPy.Slice (Some start) (Some stop) None.

(** * Properties of the numpy layer *)

Module NumPyFacts.
Import NumPy.

Section Facts.
Context {T : Type}.
Implicit Types (a : list T) (v : T) (ps : list Z).

Lemma py_mod_pos i c : 0 < c -> py_mod i c = Ok (i mod c).
Proof.
  intros Hc. unfold py_mod.
  destruct (c =? 0) eqn:E; [lia | reflexivity].
Qed.

Lemma norm_index_inside n i : 0 <= i < n -> norm_index n i = Ok i.
Proof.
  intros Hi. unfold norm_index.
  destruct (i <? - n) eqn:E1; [lia|].
  destruct (n <=? i) eqn:E2; [lia|]. simpl.
  destruct (i <? 0) eqn:E3; [lia | reflexivity].
Qed.

Lemma norm_index_negative n i :
  - n <= i < 0 -> norm_index n i = Ok (i + n).
Proof.
  intros Hi. unfold norm_index.
  destruct (i <? - n) eqn:E1; [lia|].
  destruct (n <=? i) eqn:E2; [lia|]. simpl.
  destruct (i <? 0) eqn:E3; [reflexivity | lia].
Qed.

Lemma norm_index_below n i : i < - n -> norm_index n i = Raise IndexError.
Proof.
  intros Hi. unfold norm_index.
  destruct (i <? - n) eqn:E1; [reflexivity | lia].
Qed.

Lemma setitem_int_inside a i v :
  0 <= i < len a -> setitem_int a i v = Ok (<[Z.to_nat i := v]> a).
Proof.
  intros Hi. unfold setitem_int. rewrite norm_index_inside by done. reflexivity.
Qed.


(** ** Slices *)

Lemma clamp_inside n lower upper x :
  0 <= x <= upper -> clamp n lower upper x = x.
Proof.
  intros Hx. unfold clamp. destruct (x <? 0) eqn:E; lia.
Qed.

(** Both bounds given and inside the array: nothing is clamped. *)
Lemma slice_indices_inside n b e stp :
  0 <= b < n -> 0 <= e < n ->
  slice_indices (Slice (Some b) (Some e) stp) n =
    if default 1 stp =? 0 then Raise ValueError else Ok (b, e, default 1 stp).
Proof.
  intros Hb He. unfold slice_indices. simpl.
  destruct (default 1 stp =? 0) eqn:E0; [reflexivity|].
  destruct (default 1 stp <? 0) eqn:E1;
    rewrite !clamp_inside by lia; reflexivity.
Qed.


(** A slice that runs against its step selects nothing. *)
Lemma slice_length_empty b e st : 0 < st -> e <= b -> slice_length b e st = 0.
Proof.
  intros Hst Hbe. unfold slice_length.
  destruct (st <? 0) eqn:E1; [lia|].
  destruct (b <? e) eqn:E2; [lia | reflexivity].
Qed.

Lemma slice_length_unit b e : b <= e -> slice_length b e 1 = e - b.
Proof.
  intros Hbe. unfold slice_length. simpl.
  destruct (b <? e) eqn:E2; [|lia].
  rewrite Z.div_1_r. lia.
Qed.

(** Shifting both bounds shifts nothing else. *)
Lemma slice_length_shift b e st c :
  slice_length (b + c) (e + c) st = slice_length b e st.
Proof.
  unfold slice_length.
  replace (e + c <? b + c) with (e <? b) by lia.
  replace (b + c <? e + c) with (b <? e) by lia.
  replace (b + c - (e + c) - 1) with (b - e - 1) by lia.
  replace (e + c - (b + c) - 1) with (e - b - 1) by lia.
  reflexivity.
Qed.

(** Where the selected positions lie. *)
Lemma positions_shift b e st c :
  positions (b + c) (e + c) st = (fun p => p + c) <$> positions b e st.
Proof.
  unfold positions. rewrite slice_length_shift, <- list_fmap_compose.
  apply list_fmap_ext. intros _ k _. simpl. lia.
Qed.

Lemma positions_bounds b e st p :
  st <> 0 -> p ∈ positions b e st -> Z.min b (e + 1) <= p <= Z.max b (e - 1).
Proof.
  intros Hst Hp. unfold positions in Hp.
  apply list_elem_of_fmap in Hp. destruct Hp as (k & -> & Hk).
  apply elem_of_seqZ in Hk.
  unfold slice_length in Hk.
  destruct (st <? 0) eqn:E1.
  - destruct (e <? b) eqn:E2; [|lia].
    assert (- st * ((b - e - 1) / - st) <= b - e - 1)
      by (apply Z.mul_div_le; lia).
    nia.
  - destruct (b <? e) eqn:E2; [|lia].
    assert (st * ((e - b - 1) / st) <= e - b - 1)
      by (apply Z.mul_div_le; lia).
    nia.
Qed.

Lemma positions_unit b e : b <= e -> positions b e 1 = seqZ b (e - b).
Proof.
  intros Hbe. unfold positions. rewrite slice_length_unit by done.
  replace (seqZ b (e - b)) with (seqZ (b + 0) (e - b)) by (f_equal; lia).
  rewrite <- (fmap_add_seqZ b 0).
  apply list_fmap_ext. intros _ k _. lia.
Qed.

Lemma slice_positions_inside n b e stp :
  0 <= b < n -> 0 <= e < n ->
  slice_positions (Slice (Some b) (Some e) stp) n =
    if default 1 stp =? 0 then Raise ValueError
    else Ok (positions b e (default 1 stp)).
Proof.
  intros Hb He. unfold slice_positions.
  rewrite slice_indices_inside by done.
  destruct (default 1 stp =? 0); reflexivity.
Qed.

(** ** Broadcast store *)

Lemma fill_length a ps v : length (fill a ps v) = length a.
Proof.
  revert a. induction ps as [|p ps IH]; intros a; simpl; [done|].
  unfold fill in *. simpl. rewrite IH. apply length_insert.
Qed.

Lemma fill_lookup_notin a ps v (j : nat) :
  j ∉ Z.to_nat <$> ps -> fill a ps v !! j = a !! j.
Proof.
  revert a. induction ps as [|p ps IH]; intros a Hj; [done|].
  rewrite fmap_cons, not_elem_of_cons in Hj. destruct Hj as [Hne Hj].
  unfold fill in *. simpl. rewrite IH by done.
  apply list_lookup_insert_ne. congruence.
Qed.

Lemma fill_lookup_in a ps v (j : nat) :
  j ∈ Z.to_nat <$> ps -> (j < length a)%nat -> fill a ps v !! j = Some v.
Proof.
  revert a. induction ps as [|p ps IH]; intros a Hj Hlen.
  - rewrite fmap_nil in Hj. by apply not_elem_of_nil in Hj.
  - change (fill a (p :: ps) v) with (fill (<[Z.to_nat p := v]> a) ps v).
    destruct (decide (j ∈ Z.to_nat <$> ps)) as [Hin|Hout].
    + apply IH; [done|]. by rewrite length_insert.
    + rewrite fill_lookup_notin by done.
      rewrite fmap_cons, elem_of_cons in Hj. destruct Hj as [->|Hj]; [|done].
      by apply list_lookup_insert_eq.
Qed.

(** ** Reading a unit-step slice is [take] after [drop] *)

Lemma omap_lookup_seqZ a b n :
  0 <= b -> 0 <= n -> b + n <= len a ->
  omap (fun p => a !! Z.to_nat p) (seqZ b n) =
    take (Z.to_nat n) (drop (Z.to_nat b) a).
Proof.
  intros Hb Hn. remember (Z.to_nat n) as m eqn:Hm.
  revert b n Hb Hn Hm. induction m as [|m IH]; intros b n Hb Hn Hm Hlen.
  - rewrite seqZ_nil by lia. reflexivity.
  - rewrite seqZ_cons by lia. simpl.
    unfold len in Hlen.
    destruct (lookup_lt_is_Some_2 a (Z.to_nat b)) as [x Hx]; [lia|].
    rewrite Hx. rewrite (drop_S _ _ _ Hx). simpl. f_equal.
    rewrite <- Z2Nat.inj_succ by lia.
    apply (IH (Z.succ b) (Z.pred n)); unfold len; lia.
Qed.

Lemma getitem_slice_unit a b e :
  0 <= b <= e -> e <= len a ->
  getitem_slice a (Slice (Some b) (Some e) None) =
    Ok (take (Z.to_nat (e - b)) (drop (Z.to_nat b) a)).
Proof.
  intros Hbe He. unfold getitem_slice, slice_positions, slice_indices. simpl.
  rewrite !clamp_inside by lia. simpl.
  rewrite positions_unit by lia.
  rewrite omap_lookup_seqZ by lia. reflexivity.
Qed.

Lemma getitem_slice_prefix a e :
  0 <= e <= len a ->
  getitem_slice a (Slice None (Some e) None) = Ok (take (Z.to_nat e) a).
Proof.
  intros He. unfold getitem_slice, slice_positions, slice_indices. simpl.
  rewrite !clamp_inside by lia. simpl.
  rewrite positions_unit by lia.
  rewrite omap_lookup_seqZ by lia.
  by rewrite Z.sub_0_r.
Qed.

Lemma setitem_slice_inside a b e stp v :
  0 <= b < len a -> 0 <= e < len a ->
  setitem_slice a (Slice (Some b) (Some e) stp) v =
    if default 1 stp =? 0 then Raise ValueError
    else Ok (fill a (positions b e (default 1 stp)) v).
Proof.
  intros Hb He. unfold setitem_slice.
  rewrite slice_positions_inside by done.
  destruct (default 1 stp =? 0); reflexivity.
Qed.

End Facts.
End NumPyFacts.

(** * Properties of the class *)

Arguments py_mod : simpl never.
Arguments NumPy.setitem_int : simpl never.
Arguments NumPy.getitem_int : simpl never.
Arguments NumPy.setitem_slice : simpl never.
Arguments NumPy.getitem_slice : simpl never.

Section Properties.
Import NumPyFacts.
Context {T : Type}.
Implicit Types (self : NumPyRingBuffer T) (v e : T) (a : list T).

Ltac run :=
  unfold mbind, M_bind, bind, mret, M_ret, ret, gets, lift, modify, raise;
  simpl.

Lemma mod_slot i c : 0 < c -> 0 <= i mod c < c.
Proof. intros. by apply Z.mod_pos_bound. Qed.

Lemma store_int_run self p v :
  0 <= p < NumPy.len (_npa self) ->
  store_int p v self = (Ok tt, set_npa (<[Z.to_nat p := v]> (_npa self)) self).
Proof.
  intros Hp. unfold store_int. run.
  rewrite setitem_int_inside by done. reflexivity.
Qed.

Lemma write2_length c k v a : length (write2 c k v a) = length a.
Proof. unfold write2. by rewrite !length_insert. Qed.

Lemma append_run self e :
  wf self ->
  append e self =
    (Ok tt,
     {| _npa := write2 (max_size self) (_index self mod max_size self) e (_npa self);
        max_size := max_size self;
        _index := _index self + 1 |}).
Proof.
  intros [Hc Hlen]. unfold append. run.
  pose proof (mod_slot (_index self) _ Hc) as Hk.
  rewrite py_mod_pos by done. simpl.
  rewrite store_int_run by lia. simpl.
  rewrite store_int_run
    by (simpl; unfold NumPy.len in *; rewrite length_insert; lia).
  reflexivity.
Qed.

Lemma write_index_run self i0 v :
  wf self ->
  write_index i0 v self =
    (Ok tt,
     set_npa (write2 (max_size self) ((i0 + _index self) mod max_size self) v
                (_npa self)) self).
Proof.
  intros [Hc Hlen]. unfold write_index. run.
  pose proof (mod_slot (i0 + _index self) _ Hc) as Hk.
  rewrite py_mod_pos by done. simpl.
  rewrite store_int_run by lia. simpl.
  rewrite store_int_run
    by (simpl; unfold NumPy.len in *; rewrite length_insert; lia).
  reflexivity.
Qed.

Lemma getElements_run self :
  wf self ->
  getElements self =
    (Ok (take (Z.to_nat (max_size self))
           (drop (Z.to_nat (_index self mod max_size self)) (_npa self))),
     self).
Proof.
  intros [Hc Hlen]. unfold getElements. run.
  pose proof (mod_slot (_index self) _ Hc) as Hk.
  rewrite !py_mod_pos by done. simpl.
  rewrite getitem_slice_unit by lia.
  do 3 f_equal. lia.
Qed.

Lemma target_run self :
  wf self -> 0 <= _index self ->
  __getattr__target self =
    (Ok (if _index self <? max_size self
         then take (Z.to_nat (_index self)) (_npa self)
         else take (Z.to_nat (max_size self))
                (drop (Z.to_nat (_index self mod max_size self)) (_npa self))),
     self).
Proof.
  intros [Hc Hlen] Hi. unfold __getattr__target. run.
  pose proof (mod_slot (_index self) _ Hc) as Hk.
  destruct (_index self <? max_size self) eqn:E.
  - rewrite getitem_slice_prefix by lia. reflexivity.
  - rewrite !py_mod_pos by done. simpl.
    rewrite getitem_slice_unit by lia.
    do 3 f_equal. lia.
Qed.

Lemma len_run self :
  __len__ self = (Ok (Z.min (_index self) (max_size self)), self).
Proof.
  unfold __len__, isFull. run.
  destruct (max_size self <=? _index self) eqn:E; run; do 2 f_equal; lia.
Qed.

(** ** The double write *)

Lemma write2_lookup_ne c k v a (p : nat) :
  p <> Z.to_nat k -> p <> Z.to_nat (k + c) -> write2 c k v a !! p = a !! p.
Proof.
  intros H1 H2. unfold write2.
  rewrite !list_lookup_insert_ne by congruence. reflexivity.
Qed.

Lemma write2_lookup_lo c k v a :
  0 < c -> 0 <= k -> k < NumPy.len a ->
  write2 c k v a !! Z.to_nat k = Some v.
Proof.
  intros Hc Hk Hlen. unfold write2, NumPy.len in *.
  rewrite list_lookup_insert_ne by lia.
  apply list_lookup_insert_eq. lia.
Qed.

Lemma write2_lookup_hi c k v a :
  0 < c -> 0 <= k -> k + c < NumPy.len a ->
  write2 c k v a !! Z.to_nat (k + c) = Some v.
Proof.
  intros Hc Hk Hlen. unfold write2, NumPy.len in *.
  apply list_lookup_insert_eq. rewrite length_insert. lia.
Qed.

(** Two counters less than [c] apart never share a slot. *)
Lemma mod_slot_distinct i j c : 0 < j - i < c -> i mod c <> j mod c.
Proof.
  intros Hij Heq.
  pose proof (Z.div_mod i c ltac:(lia)) as Hi.
  pose proof (Z.div_mod j c ltac:(lia)) as Hj.
  rewrite Heq in Hi.
  assert (j - i = c * (j / c - i / c)) as Hd by lia.
  destruct (Z_lt_le_dec 0 (j / c - i / c)); nia.
Qed.

Lemma tracks_start self : wf self -> _index self = 0 -> tracks self [].
Proof.
  intros Hwf Hi. split; [done|]. split; [done|].
  intros j x Hj. by rewrite lookup_nil in Hj.
Qed.

Lemma append_tracks self vals e :
  tracks self vals ->
  exists self',
    append e self = (Ok tt, self') /\ tracks self' (vals ++ [e]) /\
    max_size self' = max_size self.
Proof.
  intros (Hwf & Hidx & Hslots). pose proof Hwf as [Hc Hlen].
  eexists. split; [by apply append_run|]. split; [|reflexivity].
  set (c := max_size self) in *. set (k := _index self mod c).
  pose proof (mod_slot (_index self) c Hc) as Hk. fold k in Hk.
  split; [|split]; simpl.
  - split; simpl; [done|]. unfold NumPy.len in *. by rewrite write2_length.
  - rewrite length_app. simpl. lia.
  - intros j x Hj Hnew. rewrite length_app in Hnew. simpl in Hnew.
    apply lookup_snoc_Some in Hj. destruct Hj as [[Hlt Hj]|[-> <-]].
    + destruct (Hslots j x Hj ltac:(lia)) as [Hlo Hhi].
      assert (Z.of_nat j mod c <> k) as Hne
        by (apply mod_slot_distinct; lia).
      pose proof (mod_slot (Z.of_nat j) c Hc) as Hkj.
      rewrite !write2_lookup_ne by lia. done.
    + rewrite <- Hidx. fold k. split.
      * apply write2_lookup_lo; lia.
      * apply write2_lookup_hi; lia.
Qed.

Lemma appends_tracks vals : forall self vals0,
  tracks self vals0 ->
  exists self',
    appends vals self = (Ok tt, self') /\ tracks self' (vals0 ++ vals) /\
    max_size self' = max_size self.
Proof.
  induction vals as [|e vals IH]; intros self vals0 Htr.
  - exists self. split; [reflexivity|]. by rewrite app_nil_r.
  - destruct (append_tracks self vals0 e Htr) as (self1 & Hrun1 & Htr1 & Hms1).
    destruct (IH self1 _ Htr1) as (self2 & Hrun2 & Htr2 & Hms2).
    exists self2. split; [|split].
    + unfold appends in *. simpl. run. rewrite Hrun1. exact Hrun2.
    + by rewrite <- app_assoc in Htr2.
    + congruence.
Qed.

(** A successful construction with a positive [max_size]. *)
Lemma init_run c (mem : nat -> T) :
  0 <= c ->
  __init__ c mem =
    Ok {| _npa := mem <$> seq 0 (Z.to_nat (c * 2)); max_size := c; _index := 0 |}.
Proof.
  intros Hc. unfold __init__, NumPy.empty.
  destruct (c * 2 <? 0) eqn:E; [lia | reflexivity].
Qed.

Lemma init_wf c (mem : nat -> T) self :
  0 < c -> __init__ c mem = Ok self ->
  wf self /\ max_size self = c /\ _index self = 0.
Proof.
  intros Hc. rewrite init_run by lia. intros [= <-]. simpl.
  split; [|done]. split; simpl; [done|].
  unfold NumPy.len. rewrite length_fmap, length_seq. lia.
Qed.

(** ** The window of the newest values *)

(** Position [i] of the window that starts at slot [n mod c] holds the
    value appended as number [n - c + i], in its slot or in its mirror. *)
Lemma window_slot n c i :
  0 < c -> c <= n -> 0 <= i < c ->
  (n mod c + i < c /\ (n - c + i) mod c = n mod c + i) \/
  (c <= n mod c + i /\ (n - c + i) mod c + c = n mod c + i).
Proof.
  intros Hc Hn Hi.
  pose proof (Z.div_mod n c ltac:(lia)) as Hdm.
  pose proof (mod_slot n c Hc) as Hk.
  destruct (Z_lt_le_dec (n mod c + i) c) as [Hlt|Hge]; [left|right]; split;
    try done.
  - symmetry. apply (Z.mod_unique_pos _ _ (n / c - 1)); lia.
  - assert (n mod c + i - c = (n - c + i) mod c); [|lia].
    apply (Z.mod_unique_pos _ _ (n / c)); lia.
Qed.

Lemma window_full self vals :
  tracks self vals -> max_size self <= _index self ->
  take (Z.to_nat (max_size self))
    (drop (Z.to_nat (_index self mod max_size self)) (_npa self)) =
  newest (max_size self) vals.
Proof.
  intros ([Hc Hlen] & Hidx & Hslots) Hfull.
  set (c := max_size self) in *. set (n := _index self) in *.
  pose proof (mod_slot n c Hc) as Hk.
  apply list_eq. intros i. unfold newest. rewrite lookup_drop.
  destruct (decide (i < Z.to_nat c)%nat) as [Hi|Hi].
  - rewrite lookup_take_lt, lookup_drop by done.
    destruct (lookup_lt_is_Some_2 vals (length vals - Z.to_nat c + i))
      as [x Hx]; [lia|].
    rewrite Hx.
    destruct (Hslots _ x Hx ltac:(lia)) as [Hlo Hhi].
    replace (Z.of_nat (length vals - Z.to_nat c + i))
      with (n - c + Z.of_nat i) in Hlo, Hhi by lia.
    destruct (window_slot n c (Z.of_nat i)) as [[_ Hs]|[_ Hs]]; try lia.
    + rewrite Hs in Hlo. rewrite <- Hlo. f_equal. lia.
    + rewrite Hs in Hhi. rewrite <- Hhi. f_equal. lia.
  - rewrite lookup_take_ge by lia. symmetry.
    apply lookup_ge_None_2. lia.
Qed.

Lemma window_partial self vals :
  tracks self vals -> _index self < max_size self ->
  take (Z.to_nat (_index self)) (_npa self) = vals.
Proof.
  intros ([Hc Hlen] & Hidx & Hslots) Hpart.
  apply list_eq. intros i.
  destruct (decide (i < length vals)%nat) as [Hi|Hi].
  - rewrite lookup_take_lt by lia.
    destruct (lookup_lt_is_Some_2 vals i) as [x Hx]; [lia|].
    rewrite Hx. destruct (Hslots _ x Hx ltac:(lia)) as [Hlo _].
    rewrite Z.mod_small in Hlo by lia.
    by rewrite Nat2Z.id in Hlo.
  - rewrite lookup_take_ge by lia. symmetry.
    apply lookup_ge_None_2. lia.
Qed.

Lemma newest_all c (vals : list T) :
  Z.of_nat (length vals) <= c -> newest c vals = vals.
Proof.
  intros Hn. unfold newest.
  replace (length vals - Z.to_nat c)%nat with 0%nat by lia. reflexivity.
Qed.

Lemma newest_length c (vals : list T) :
  0 <= c ->
  Z.of_nat (length (newest c vals)) = Z.min (Z.of_nat (length vals)) c.
Proof. intros Hc. unfold newest. rewrite length_drop. lia. Qed.

(** The array [__getattr__] hands a numpy method to. *)
Lemma target_tracks self vals :
  tracks self vals ->
  __getattr__target self = (Ok (newest (max_size self) vals), self).
Proof.
  intros Htr. pose proof Htr as (Hwf & Hidx & _).
  rewrite target_run by (done || lia).
  destruct (_index self <? max_size self) eqn:E.
  - rewrite window_partial with (vals := vals) by (done || lia).
    rewrite newest_all by lia. reflexivity.
  - rewrite window_full with (vals := vals) by (done || lia). reflexivity.
Qed.

(** [getElements] on a full buffer. *)
Lemma getElements_full self vals :
  tracks self vals -> max_size self <= _index self ->
  getElements self = (Ok (newest (max_size self) vals), self).
Proof.
  intros Htr Hfull. pose proof Htr as (Hwf & _).
  rewrite getElements_run by done.
  by rewrite window_full with (vals := vals).
Qed.

(** Sequencing after a computation whose outcome is known. *)
Lemma bind_run {A B} (m : M T A) (k : A -> M T B) self x self' :
  m self = (Ok x, self') -> (m ≫= k) self = k x self'.
Proof. intros H. run. by rewrite H. Qed.

Lemma seq_run {A B} (m : M T A) (m' : M T B) self x self' :
  m self = (Ok x, self') -> (m ;; m') self = m' self'.
Proof. intros H. run. by rewrite H. Qed.

(** Appending to a freshly constructed buffer. *)
Lemma fresh_appends c (mem : nat -> T) vals :
  0 < c ->
  exists self0 self,
    __init__ c mem = Ok self0 /\
    appends vals self0 = (Ok tt, self) /\
    tracks self vals /\ max_size self = c.
Proof.
  intros Hc.
  destruct (init_wf c mem _ Hc (init_run c mem ltac:(lia))) as (Hwf & Hms & Hi).
  destruct (appends_tracks vals _ [] (tracks_start _ Hwf Hi))
    as (self & Hrun & Htr & Hms').
  eexists _, self. split; [by apply init_run; lia|].
  split; [exact Hrun|]. split; [exact Htr|]. congruence.
Qed.

(** ** Length and window after a run of appends *)

(** C2: for every capacity [c > 0] and every sequence [vals] of appended
    values, construction succeeds, every append succeeds, and [len(buffer)]
    is then the minimum of the number of appended values and [c].  As
    [vals] is arbitrary, this holds after each append of a longer run. *)
Theorem len_after_appends (c : Z) (mem : nat -> T) (vals : list T) :
  0 < c ->
  exists self0,
    __init__ c mem = Ok self0 /\
    eval (appends vals;; __len__) self0 =
      Ok (Z.min (Z.of_nat (length vals)) c).
Proof.
  intros Hc.
  destruct (fresh_appends c mem vals Hc) as (self0 & self & Hinit & Hrun & Htr & Hms).
  exists self0. split; [exact Hinit|].
  unfold eval. rewrite (seq_run _ _ _ _ _ Hrun), len_run. simpl.
  destruct Htr as (_ & -> & _). by rewrite Hms.
Qed.

(** C3: a numpy reduction [red] (min, max, mean, std, sum, ...) called on
    the buffer after the values [vals] were appended to a fresh buffer of
    capacity [c > 0] is [red] applied to the current logical window: all of
    [vals], in order, while fewer than [c] values were appended, and the
    last [c] values of [vals] once the buffer is full, which is the array
    one builds independently from the last [c] appended values. *)
Theorem reduction_over_window {R} (red : list T -> R)
    (c : Z) (mem : nat -> T) (vals : list T) :
  0 < c ->
  exists self0,
    __init__ c mem = Ok self0 /\
    eval (appends vals;; __getattr__ red) self0 = Ok (red (newest c vals)) /\
    (Z.of_nat (length vals) < c -> newest c vals = vals) /\
    (c <= Z.of_nat (length vals) ->
       newest c vals = drop (length vals - Z.to_nat c) vals /\
       length (newest c vals) = Z.to_nat c).
Proof.
  intros Hc.
  destruct (fresh_appends c mem vals Hc) as (self0 & self & Hinit & Hrun & Htr & Hms).
  exists self0. split; [exact Hinit|]. split; [|split].
  - unfold eval. rewrite (seq_run _ _ _ _ _ Hrun). unfold __getattr__.
    rewrite (bind_run _ _ _ _ _ (target_tracks _ _ Htr)). by rewrite Hms.
  - intros Hn. apply newest_all. lia.
  - intros Hn. split; [reflexivity|].
    pose proof (newest_length c vals ltac:(lia)). lia.
Qed.

(** ** [clear] *)

(** What [clear()] does on any buffer with [max_size > 0]: it sets the
    counter to 0 and leaves the store and [max_size] as they were; [len] is
    then 0; and after the next append [len] is 1 and the array a reduction
    sees is that single value.  What [getElements] and [rb[0]] return then
    is another matter. *)
Theorem clear_resets_counter_only self :
  wf self ->
  clear self =
    (Ok tt, {| _npa := _npa self; max_size := max_size self; _index := 0 |}) /\
  _npa (exec clear self) = _npa self /\
  eval (clear;; __len__) self = Ok 0 /\
  forall e,
    eval (clear;; append e;; __len__) self = Ok 1 /\
    eval (clear;; append e;; __getattr__target) self = Ok [e] /\
    forall R (red : list T -> R),
      eval (clear;; append e;; __getattr__ red) self = Ok (red [e]).
Proof.
  intros Hwf. pose proof Hwf as [Hc Hlen].
  assert (clear self = (Ok tt, set_index 0 self)) as Hclear by reflexivity.
  assert (tracks (set_index 0 self) []) as Htr0 by (by apply tracks_start).
  split; [exact Hclear|]. split; [reflexivity|]. split.
  - unfold eval. rewrite (seq_run _ _ _ _ _ Hclear), len_run. simpl.
    f_equal. lia.
  - intros e.
    destruct (append_tracks _ _ e Htr0) as (self1 & Hrun1 & Htr1 & Hms1).
    simpl in Htr1.
    assert (newest (max_size self1) [e] = [e]) as Hnew
      by (apply newest_all; simpl in *; lia).
    unfold eval. split; [|split].
    + rewrite (seq_run _ _ _ _ _ Hclear), (seq_run _ _ _ _ _ Hrun1), len_run.
      destruct Htr1 as (_ & -> & _). simpl in *. f_equal. lia.
    + rewrite (seq_run _ _ _ _ _ Hclear), (seq_run _ _ _ _ _ Hrun1).
      rewrite (target_tracks _ _ Htr1). simpl. by rewrite Hnew.
    + intros R red.
      rewrite (seq_run _ _ _ _ _ Hclear), (seq_run _ _ _ _ _ Hrun1).
      unfold __getattr__.
      rewrite (bind_run _ _ _ _ _ (target_tracks _ _ Htr1)). simpl.
      by rewrite Hnew.
Qed.

(** ** Composing what computations preserve *)

Section Preserves.
Context (R : relation (NumPyRingBuffer T)) `{!PreOrder R}.

Lemma preserves_ret {A} (x : A) : preserves R (mret x : M T A).
Proof. intros self. unfold exec. simpl. reflexivity. Qed.

Lemma preserves_gets {A} (f : NumPyRingBuffer T -> A) : preserves R (gets f).
Proof. intros self. unfold exec. simpl. reflexivity. Qed.

Lemma preserves_lift {A} (r : result A) : preserves R (lift r).
Proof. intros self. unfold exec. simpl. reflexivity. Qed.

Lemma preserves_raise {A} (e : exn) : preserves R (raise e : M T A).
Proof. intros self. unfold exec. simpl. reflexivity. Qed.

Lemma preserves_modify f : (forall self, R self (f self)) -> preserves R (modify f).
Proof. intros Hf self. apply Hf. Qed.

Lemma preserves_bind {A B} (m : M T A) (k : A -> M T B) :
  preserves R m -> (forall x, preserves R (k x)) -> preserves R (m ≫= k).
Proof.
  intros Hm Hk self. specialize (Hm self). unfold exec in *. run.
  destruct (m self) as [[x|e] self1]; simpl in *; [|exact Hm].
  transitivity self1; [exact Hm | apply Hk].
Qed.

Lemma preserves_for_each {A} (body : A -> M T unit) l :
  (forall x, preserves R (body x)) -> preserves R (for_each body l).
Proof.
  intros Hbody. induction l as [|x l IH]; simpl.
  - apply preserves_ret.
  - apply preserves_bind; [apply Hbody | intros _; exact IH].
Qed.

Lemma preserves_perform_all (P : call -> Prop) cs self :
  (forall c self, P c -> R self (perform c self)) ->
  Forall P cs -> R self (perform_all cs self).
Proof.
  intros Hstep Hcs. revert self.
  induction Hcs as [|c cs Hc _ IH]; intros self; simpl; [reflexivity|].
  transitivity (perform c self); [by apply Hstep | apply IH].
Qed.

End Preserves.

Ltac pres_with leaf :=
  repeat first
    [ match goal with |- PreOrder _ => typeclasses eauto end
    | match goal with |- forall _, _ => intros ? end
    | leaf
    | apply preserves_ret | apply preserves_gets | apply preserves_lift
    | apply preserves_raise | apply preserves_bind ].

Ltac pres := pres_with fail.

(** ** Methods that only read leave the object as it is *)

Lemma getElements_pure : preserves (T:=T) eq getElements.
Proof. unfold getElements. pres. Qed.

Lemma isFull_pure : preserves (T:=T) eq isFull.
Proof. unfold isFull. pres. Qed.

Lemma len_pure : preserves (T:=T) eq __len__.
Proof.
  unfold __len__. apply preserves_bind; [pres | apply isFull_pure|].
  intros [|]; pres.
Qed.

Lemma target_pure : preserves (T:=T) eq __getattr__target.
Proof.
  unfold __getattr__target. apply preserves_bind; [pres..|]. intros i.
  apply preserves_bind; [pres..|]. intros ms.
  destruct (i <? ms); pres.
Qed.

Lemma getitem_pure indexs : preserves (T:=T) eq (__getitem__ indexs).
Proof.
  unfold __getitem__. apply preserves_bind; [pres | apply getElements_pure|].
  intros cur. destruct indexs; pres.
Qed.

Lemma preserves_pure (R : relation (NumPyRingBuffer T)) `{!Reflexive R}
    {A} (m : M T A) :
  preserves eq m -> preserves R m.
Proof. intros Hm self. rewrite <- (Hm self). reflexivity. Qed.

(** ** The counter never goes down, except by [clear] *)

#[local] Instance counter_up_preorder : PreOrder (counter_up (T:=T)).
Proof.
  split.
  - intros self. split; [reflexivity | lia].
  - intros s1 s2 s3 [Hm1 Hi1] [Hm2 Hi2]. split; [congruence | lia].
Qed.

Lemma store_int_counter p v : preserves counter_up (store_int p v).
Proof.
  unfold store_int. pres. apply preserves_modify.
  intros self. split; simpl; [reflexivity | lia].
Qed.

Lemma store_slice_counter sl v : preserves counter_up (store_slice sl v).
Proof.
  unfold store_slice. pres. apply preserves_modify.
  intros self. split; simpl; [reflexivity | lia].
Qed.

Lemma append_counter e : preserves counter_up (append e).
Proof.
  unfold append. pres_with ltac:(apply store_int_counter).
  apply preserves_modify. intros self. split; simpl; [reflexivity | lia].
Qed.

Lemma write_index_counter i0 v : preserves counter_up (write_index i0 v).
Proof.
  unfold write_index. cbv zeta. pres_with ltac:(apply store_int_counter).
Qed.

Lemma write_range_counter sl v : preserves counter_up (write_range sl v).
Proof.
  unfold write_range. cbv zeta. pres_with ltac:(apply store_slice_counter).
Qed.

Lemma setitem_counter indexs v : preserves counter_up (__setitem__ indexs v).
Proof.
  destruct indexs as [i0|sl|l|]; simpl.
  - apply write_index_counter.
  - apply write_range_counter.
  - apply preserves_for_each; [pres|].
    intros [i0|sl| |]; simpl; pres_with ltac:(apply write_index_counter).
  - pres.
Qed.

Lemma perform_counter_up c self :
  is_clear c = false -> counter_up self (perform c self).
Proof.
  destruct c; simpl; intros Hc; try discriminate.
  - apply append_counter.
  - apply (preserves_pure _ _ getElements_pure).
  - apply (preserves_pure _ _ isFull_pure).
  - apply setitem_counter.
  - apply (preserves_pure _ _ (getitem_pure _)).
  - apply (preserves_pure _ _ target_pure).
  - apply (preserves_pure _ _ len_pure).
Qed.

Lemma isFull_run self :
  isFull self = (Ok (max_size self <=? _index self), self).
Proof. reflexivity. Qed.

(** C7: [isFull()] is true exactly when the counter has reached
    [max_size]; after at least [c] appends to a fresh buffer of capacity
    [c > 0] it is true; from a state where it is true it stays true after
    every call that is not [clear()], whatever the call and whether or not
    it raises, hence after any run of such calls; and [clear()] makes it
    false. *)
Theorem isFull_until_clear :
  (forall self,
     eval isFull self = Ok true <-> max_size self <= _index self) /\
  (forall c (mem : nat -> T) vals,
     0 < c -> c <= Z.of_nat (length vals) ->
     exists self0 self,
       __init__ c mem = Ok self0 /\ appends vals self0 = (Ok tt, self) /\
       eval isFull self = Ok true) /\
  (forall self cl,
     eval isFull self = Ok true -> is_clear cl = false ->
     eval isFull (perform cl self) = Ok true) /\
  (forall self cs,
     eval isFull self = Ok true -> Forall (fun cl => is_clear cl = false) cs ->
     eval isFull (perform_all cs self) = Ok true) /\
  (forall self,
     0 < max_size self -> eval isFull (perform Clear self) = Ok false).
Proof.
  assert (forall self : NumPyRingBuffer T,
            eval isFull self = Ok true <-> max_size self <= _index self) as Hfull.
  { intros self. unfold eval. rewrite isFull_run. simpl.
    destruct (max_size self <=? _index self) eqn:E; split; intros H;
      (done || lia). }
  split; [exact Hfull|]. split; [|split; [|split]].
  - intros c mem vals Hc Hn.
    destruct (fresh_appends c mem vals Hc)
      as (self0 & self & Hinit & Hrun & Htr & Hms).
    exists self0, self. split; [done|]. split; [done|].
    apply Hfull. destruct Htr as (_ & -> & _). lia.
  - intros self cl Hself Hcl. apply Hfull. apply Hfull in Hself.
    destruct (perform_counter_up cl self Hcl) as [-> Hup]. lia.
  - intros self cs Hself Hcs. apply Hfull. apply Hfull in Hself.
    destruct (preserves_perform_all counter_up _ cs self perform_counter_up Hcs)
      as [-> Hup]. lia.
  - intros self Hc. unfold eval. simpl.
    destruct (max_size self <=? 0) eqn:E; [lia | reflexivity].
Qed.

(** ** Every write goes to a slot and to its mirror *)

#[local] Instance keeps_mirror_preorder : PreOrder (keeps_mirror (T:=T)).
Proof.
  split.
  - intros self Hwf. done.
  - intros s1 s2 s3 H12 H23 Hwf1.
    destruct (H12 Hwf1) as (Hwf2 & Hm2 & Hi2 & Hs2).
    destruct (H23 Hwf2) as (Hwf3 & Hm3 & Hi3 & Hs3).
    split; [done|]. split; [congruence|]. split; [congruence|].
    intros s Hs Hmir. apply Hs3; [by rewrite Hm2 | by apply Hs2].
Qed.

Lemma write2_mirrors self k v :
  wf self -> 0 <= k < max_size self ->
  mirrored (set_npa (write2 (max_size self) k v (_npa self)) self) (Z.to_nat k).
Proof.
  intros [Hc Hlen] Hk. exists v. simpl. split.
  - apply write2_lookup_lo; lia.
  - rewrite <- Z2Nat.inj_add by lia. apply write2_lookup_hi; lia.
Qed.

Lemma write2_keeps self k v (s : nat) :
  wf self -> 0 <= k < max_size self -> Z.of_nat s < max_size self ->
  mirrored self s ->
  mirrored (set_npa (write2 (max_size self) k v (_npa self)) self) s.
Proof.
  intros Hwf Hk Hs Hmir.
  destruct (decide (s = Z.to_nat k)) as [->|Hne]; [by apply write2_mirrors|].
  destruct Hmir as (x & Hlo & Hhi). exists x. simpl.
  rewrite !write2_lookup_ne by lia. done.
Qed.

Lemma fill2_keeps self ps v (s : nat) :
  wf self -> (forall p, p ∈ ps -> 0 <= p < max_size self) ->
  Z.of_nat s < max_size self ->
  mirrored self s ->
  mirrored
    (set_npa (NumPy.fill (NumPy.fill (_npa self) ps v)
                ((fun p => p + max_size self) <$> ps) v) self) s.
Proof.
  intros [Hc Hlen] Hps Hs (x & Hlo & Hhi). unfold mirrored. simpl.
  set (c := max_size self) in *. unfold NumPy.len in Hlen.
  assert (s ∉ Z.to_nat <$> ((fun p => p + c) <$> ps)) as Hs_hi.
  { intros Hin. apply list_elem_of_fmap in Hin. destruct Hin as (q & -> & Hq).
    apply list_elem_of_fmap in Hq. destruct Hq as (p & -> & Hp).
    specialize (Hps p Hp). lia. }
  assert ((s + Z.to_nat c)%nat ∉ Z.to_nat <$> ps) as Hm_lo.
  { intros Hin. apply list_elem_of_fmap in Hin. destruct Hin as (p & Heq & Hp).
    specialize (Hps p Hp). lia. }
  rewrite (fill_lookup_notin _ _ _ s) by done.
  destruct (decide (s ∈ Z.to_nat <$> ps)) as [Hin|Hout].
  - exists v. split.
    + apply fill_lookup_in; [done | lia].
    + apply fill_lookup_in; [|rewrite fill_length; lia].
      apply list_elem_of_fmap in Hin. destruct Hin as (p & -> & Hp).
      apply list_elem_of_fmap. exists (p + c). split.
      * specialize (Hps p Hp). lia.
      * apply list_elem_of_fmap. by exists p.
  - exists x. rewrite fill_lookup_notin by done. split; [done|].
    rewrite !fill_lookup_notin; [done | done |].
    intros Hin. apply Hout.
    apply list_elem_of_fmap in Hin. destruct Hin as (q & Heq & Hq).
    apply list_elem_of_fmap in Hq. destruct Hq as (p & -> & Hp).
    apply list_elem_of_fmap. exists p. split; [|done].
    specialize (Hps p Hp). lia.
Qed.

Lemma write_range_run self sl v :
  wf self ->
  let c := max_size self in
  let a := (default 0 (NumPy.start sl) + _index self) mod c in
  let b := (default 0 (NumPy.stop sl) + _index self) mod c in
  let stp := NumPy.step sl in
  write_range sl v self =
    if default 1 stp =? 0 then (Raise ValueError, self)
    else
      (Ok tt,
       set_npa (NumPy.fill
                  (NumPy.fill (_npa self) (NumPy.positions a b (default 1 stp)) v)
                  (NumPy.positions (a + c) (b + c) (default 1 stp)) v) self).
Proof.
  intros [Hc Hlen] c a b stp. unfold write_range. run. fold stp.
  pose proof (mod_slot (default 0 (NumPy.start sl) + _index self) _ Hc) as Ha.
  pose proof (mod_slot (default 0 (NumPy.stop sl) + _index self) _ Hc) as Hb.
  fold c a in Ha. fold c b in Hb.
  assert (match NumPy.stop sl with Some e => e | None => 0 end
          = default 0 (NumPy.stop sl)) as -> by (by destruct (NumPy.stop sl)).
  rewrite !py_mod_pos by done. simpl. fold c a b.
  unfold store_slice. run.
  rewrite setitem_slice_inside by lia.
  destruct (default 1 stp =? 0) eqn:E; simpl; [reflexivity|].
  rewrite setitem_slice_inside
    by (unfold NumPy.len in *; rewrite fill_length; lia).
  rewrite E. reflexivity.
Qed.

Lemma write_index_keeps i0 v : preserves keeps_mirror (write_index i0 v).
Proof.
  intros self Hwf. unfold exec. rewrite write_index_run by done. simpl.
  pose proof Hwf as [Hc Hlen].
  pose proof (mod_slot (i0 + _index self) _ Hc) as Hk.
  split; [|split; [done|split; [done|]]].
  - split; simpl; [done|]. unfold NumPy.len in *. by rewrite write2_length.
  - intros s Hs Hmir. by apply write2_keeps.
Qed.

Lemma write_range_keeps sl v : preserves keeps_mirror (write_range sl v).
Proof.
  intros self Hwf. unfold exec. rewrite (write_range_run _ _ _ Hwf). cbv zeta.
  set (stp := NumPy.step sl).
  pose proof Hwf as [Hc Hlen].
  set (c := max_size self).
  set (a := (default 0 (NumPy.start sl) + _index self) mod c).
  set (b := (default 0 (NumPy.stop sl) + _index self) mod c).
  pose proof (mod_slot (default 0 (NumPy.start sl) + _index self) _ Hc) as Ha.
  pose proof (mod_slot (default 0 (NumPy.stop sl) + _index self) _ Hc) as Hb.
  fold c a in Ha. fold c b in Hb.
  destruct (default 1 stp =? 0) eqn:E; simpl; [done|].
  split; [|split; [done|split; [done|]]].
  - split; simpl; [done|]. unfold NumPy.len in *. by rewrite !fill_length.
  - intros s Hs Hmir. rewrite positions_shift.
    apply fill2_keeps; try done.
    intros p Hp. apply positions_bounds in Hp; lia.
Qed.

Lemma setitem_keeps indexs v : preserves keeps_mirror (__setitem__ indexs v).
Proof.
  destruct indexs as [i0|sl|l|]; simpl.
  - apply write_index_keeps.
  - apply write_range_keeps.
  - apply preserves_for_each; [pres|].
    intros [i0|sl| |]; simpl; pres_with ltac:(apply write_index_keeps).
  - pres.
Qed.

(** Whatever the call, a mirrored slot stays mirrored. *)
Lemma perform_keeps cl self :
  wf self ->
  wf (perform cl self) /\ max_size (perform cl self) = max_size self /\
  forall s : nat,
    Z.of_nat s < max_size self -> mirrored self s -> mirrored (perform cl self) s.
Proof.
  intros Hwf. pose proof Hwf as [Hc Hlen].
  destruct cl as [e| | | |indexs v|indexs| |]; simpl.
  - unfold exec. rewrite append_run by done. simpl.
    pose proof (mod_slot (_index self) _ Hc) as Hk.
    split; [|split; [done|]].
    + split; simpl; [done|]. unfold NumPy.len in *. by rewrite write2_length.
    + intros s Hs Hmir.
      exact (write2_keeps self _ e s Hwf Hk Hs Hmir).
  - by rewrite <- (getElements_pure self).
  - by rewrite <- (isFull_pure self).
  - done.
  - destruct (setitem_keeps indexs v self Hwf) as (? & ? & ? & ?). done.
  - by rewrite <- (getitem_pure indexs self).
  - by rewrite <- (target_pure self).
  - by rewrite <- (len_pure self).
Qed.

Lemma perform_settled c mem cl self :
  settled c mem self -> settled c mem (perform cl self).
Proof.
  intros (Hwf & Hms & Hslots). pose proof Hwf as [Hc Hlen].
  destruct (perform_keeps cl self Hwf) as (Hwf' & Hms' & Hkeep).
  split; [done|]. split; [congruence|].
  intros s Hs Hor.
  assert (Z.of_nat s < _index self \/ mem s = mem (s + Z.to_nat c)%nat ->
          mirrored (perform cl self) s) as Hold.
  { intros H. apply Hkeep; [lia|]. by apply Hslots. }
  destruct Hor as [Hlt|Heq]; [|by apply Hold; right].
  destruct cl as [e| | | |indexs v|indexs| |]; simpl in *.
  - destruct (decide (Z.of_nat s < _index self)) as [Hlt'|Hge];
      [by apply Hold; left|].
    unfold exec in *. rewrite append_run in * by done. simpl in *.
    assert (_index self = Z.of_nat s) as Hidx by lia.
    pose proof (write2_mirrors self (_index self mod max_size self) e Hwf
                  (mod_slot _ _ Hc)) as Hmir.
    rewrite Hidx, Z.mod_small, Nat2Z.id in Hmir by lia.
    rewrite Hidx, Z.mod_small by lia. exact Hmir.
  - rewrite <- (getElements_pure self) in *. by apply Hold; left.
  - rewrite <- (isFull_pure self) in *. by apply Hold; left.
  - lia.
  - destruct (setitem_keeps indexs v self Hwf) as (_ & _ & Hidx & _).
    rewrite Hidx in Hlt. by apply Hold; left.
  - rewrite <- (getitem_pure indexs self) in *. by apply Hold; left.
  - rewrite <- (target_pure self) in *. by apply Hold; left.
  - rewrite <- (len_pure self) in *. by apply Hold; left.
Qed.

Lemma perform_all_settled c mem cs : forall self,
  settled c mem self -> settled c mem (perform_all cs self).
Proof.
  induction cs as [|cl cs IH]; intros self Hs; simpl; [done|].
  apply IH. by apply perform_settled.
Qed.

Lemma init_settled c (mem : nat -> T) self0 :
  0 < c -> __init__ c mem = Ok self0 -> settled c mem self0.
Proof.
  intros Hc Hinit.
  destruct (init_wf c mem self0 Hc Hinit) as (Hwf & Hms & Hidx).
  split; [done|]. split; [done|].
  intros s Hs [Hlt|Heq]; [lia|].
  rewrite init_run in Hinit by lia. injection Hinit as <-.
  exists (mem s). simpl.
  rewrite !list_lookup_fmap, !lookup_seq_lt by lia. simpl.
  split; [done|]. by rewrite Heq.
Qed.

(** C4, as the code has it: every mutating call writes a value to a slot
    and to the slot [max_size] further on.  Hence (1) whatever is called,
    a slot [s < max_size] whose two copies agree keeps them in agreement;
    (2) [append] and an integer write make the two copies of the slot they
    write agree; and (3) after any calls on a buffer freshly constructed
    with capacity [c > 0], the store has [2 * c] slots and the two copies
    agree at every slot below the counter and at every slot where the
    uninitialised allocation [mem] had them agree. *)
Theorem mirror_after_calls :
  (forall self cl (s : nat),
     wf self -> Z.of_nat s < max_size self ->
     mirrored self s -> mirrored (perform cl self) s) /\
  (forall self e,
     wf self ->
     mirrored (perform (Append e) self)
       (Z.to_nat (_index self mod max_size self))) /\
  (forall self i0 v,
     wf self ->
     mirrored (perform (SetItem (PyInt i0) v) self)
       (Z.to_nat ((i0 + _index self) mod max_size self))) /\
  (forall c (mem : nat -> T) cs,
     0 < c ->
     exists self0,
       __init__ c mem = Ok self0 /\
       NumPy.len (_npa (perform_all cs self0)) = 2 * c /\
       max_size (perform_all cs self0) = c /\
       forall s : nat,
         Z.of_nat s < c ->
         Z.of_nat s < _index (perform_all cs self0) \/
           mem s = mem (s + Z.to_nat c)%nat ->
         mirrored (perform_all cs self0) s).
Proof.
  split; [|split; [|split]].
  - intros self cl s Hwf Hs Hmir.
    by apply (perform_keeps cl self Hwf).
  - intros self e Hwf. pose proof Hwf as [Hc _]. simpl. unfold exec.
    rewrite append_run by done.
    exact (write2_mirrors self _ e Hwf (mod_slot _ _ Hc)).
  - intros self i0 v Hwf. pose proof Hwf as [Hc _]. simpl. unfold exec.
    rewrite write_index_run by done.
    exact (write2_mirrors self _ v Hwf (mod_slot _ _ Hc)).
  - intros c mem cs Hc.
    eexists. split; [by apply init_run; lia|].
    pose proof (init_settled c mem _ Hc (init_run c mem ltac:(lia))) as Hs0.
    destruct (perform_all_settled c mem cs _ Hs0) as ([_ Hlen] & Hms & Hslots).
    split; [by rewrite Hlen, Hms|]. split; [done|]. exact Hslots.
Qed.

(** ** Range writes that wrap *)

Lemma positions_empty (lo hi st : Z) :
  0 < st -> hi <= lo -> NumPy.positions lo hi st = [].
Proof.
  intros Hst Hbe. unfold NumPy.positions.
  by rewrite slice_length_empty by done.
Qed.

Lemma set_npa_same self : set_npa (_npa self) self = self.
Proof. by destruct self. Qed.

(** C9: a range write [rb[start:stop] = v] (step omitted or positive)
    whose cursor-relative physical range wraps, that is
    [(start + _index) % max_size > (stop + _index) % max_size], returns
    without raising and leaves the object, hence every slot of the store,
    as it was: both physical slices it computes select no position.  This
    holds for every [start] and [stop], non-negative ones included. *)
Theorem wrapped_range_write_is_dropped self (start stop : Z) stp v :
  wf self -> 0 < default 1 stp ->
  (start + _index self) mod max_size self >
    (stop + _index self) mod max_size self ->
  let c := max_size self in
  let a := (start + _index self) mod c in
  let b := (stop + _index self) mod c in
  __setitem__ (PySlice (NumPy.Slice (Some start) (Some stop) stp)) v self =
    (Ok tt, self) /\
  NumPy.slice_positions (NumPy.Slice (Some a) (Some b) stp)
    (NumPy.len (_npa self)) = Ok [] /\
  NumPy.slice_positions (NumPy.Slice (Some (a + c)) (Some (b + c)) stp)
    (NumPy.len (_npa self)) = Ok [].
Proof.
  intros Hwf Hst Hwrap c a b. pose proof Hwf as [Hc Hlen].
  pose proof (mod_slot (start + _index self) _ Hc) as Ha.
  pose proof (mod_slot (stop + _index self) _ Hc) as Hb.
  fold c a in Ha. fold c b in Hb. fold c a b in Hwrap.
  assert ((default 1 stp =? 0) = false) as E by lia.
  split; [|split].
  - simpl. rewrite (write_range_run _ _ _ Hwf). simpl. fold c a b.
    rewrite E, !positions_empty by lia. simpl.
    by rewrite set_npa_same.
  - rewrite slice_positions_inside by lia.
    by rewrite E, positions_empty by lia.
  - rewrite slice_positions_inside by lia.
    by rewrite E, positions_empty by lia.
Qed.

(** ** A list or tuple selector with a slice in it *)

Lemma for_each_app {A} (body : A -> M T unit) l1 l2 self :
  for_each body (l1 ++ l2) self = (for_each body l1;; for_each body l2) self.
Proof.
  revert self. induction l1 as [|x l1 IH]; intros self; simpl; [done|].
  run. destruct (body x self) as [[[]|e] self1]; [|done].
  rewrite IH. run. reflexivity.
Qed.

Lemma setitem_seq l v : __setitem__ (PySeq l) v = for_each (seq_write v) l.
Proof. reflexivity. Qed.

Lemma insert_same_value a (p q : nat) v :
  a !! p = Some v -> <[q := v]> a !! p = Some v.
Proof.
  intros Hp. destruct (decide (q = p)) as [->|Hne].
  - apply list_lookup_insert_eq. by eapply lookup_lt_Some.
  - by rewrite list_lookup_insert_ne.
Qed.

(** The integers of a list without slices are all written, and nothing
    raises. *)
Lemma seq_write_ints pre v : forall self,
  wf self -> Forall (fun o => is_slice o = false) pre ->
  exists self',
    for_each (seq_write v) pre self = (Ok tt, self') /\
    wf self' /\ max_size self' = max_size self /\ _index self' = _index self /\
    (forall p : nat, _npa self !! p = Some v -> _npa self' !! p = Some v) /\
    (forall i0, PyInt i0 ∈ pre ->
       let k := (i0 + _index self) mod max_size self in
       _npa self' !! Z.to_nat k = Some v /\
       _npa self' !! Z.to_nat (k + max_size self) = Some v).
Proof.
  induction pre as [|o pre IH]; intros self Hwf Hpre.
  - exists self. do 5 (split; [done|]).
    intros i0 Hi0. by apply not_elem_of_nil in Hi0.
  - inversion Hpre as [|? ? Ho Hpre']; subst. clear Hpre. rename Hpre' into Hpre.
    pose proof Hwf as [Hc Hlen].
    destruct o as [i0|sl|l|]; [|discriminate| |].
    + (* an integer: written to its slot and to the mirror *)
      pose proof (write_index_keeps i0 v self Hwf) as (Hwf1 & Hms1 & Hidx1 & _).
      unfold exec in *. rewrite write_index_run in * by done. cbn [snd] in *.
      set (k0 := (i0 + _index self) mod max_size self) in *.
      pose proof (mod_slot (i0 + _index self) _ Hc) as Hk0. fold k0 in Hk0.
      set (self1 := set_npa _ self) in *.
      destruct (IH self1 Hwf1 Hpre)
        as (self' & Hrun & Hwf' & Hms' & Hidx' & Hkeep & Hints).
      exists self'. split; [|split; [done|split; [congruence|split; [congruence|split]]]].
      * simpl. run. rewrite write_index_run by done. fold k0 self1. exact Hrun.
      * intros p Hp. apply Hkeep. simpl. unfold write2.
        by do 2 apply insert_same_value.
      * intros j Hj. apply elem_of_cons in Hj. destruct Hj as [[= ->]|Hj].
        -- fold k0. split; apply Hkeep; simpl.
           ++ apply write2_lookup_lo; lia.
           ++ apply write2_lookup_hi; lia.
        -- specialize (Hints j Hj). rewrite Hms1, Hidx1 in Hints. exact Hints.
    + destruct (IH self Hwf Hpre)
        as (self' & Hrun & Hwf' & Hms' & Hidx' & Hkeep & Hints).
      exists self'. do 5 (split; [done|]).
      intros j Hj. apply elem_of_cons in Hj. destruct Hj as [[=]|Hj].
      by apply Hints.
    + destruct (IH self Hwf Hpre)
        as (self' & Hrun & Hwf' & Hms' & Hidx' & Hkeep & Hints).
      exists self'. do 5 (split; [done|]).
      intros j Hj. apply elem_of_cons in Hj. destruct Hj as [[=]|Hj].
      by apply Hints.
Qed.

Lemma first_slice_split (l : list pyobj) :
  (exists sl, PySlice sl ∈ l) ->
  exists pre sl post,
    l = pre ++ PySlice sl :: post /\ Forall (fun o => is_slice o = false) pre.
Proof.
  induction l as [|o l IH]; intros [sl Hin].
  - by apply not_elem_of_nil in Hin.
  - destruct (is_slice o) eqn:Ho.
    + destruct o as [|sl0| |]; try discriminate.
      exists [], sl0, l. split; [reflexivity | constructor].
    + apply elem_of_cons in Hin. destruct Hin as [<-|Hin]; [discriminate|].
      destruct (IH (ex_intro _ sl Hin)) as (pre & sl1 & post & -> & Hpre).
      exists (o :: pre), sl1, post. split; [reflexivity | by constructor].
Qed.

(** C10: a write whose selector is a list or tuple [l] with at least one
    slice in it raises [AttributeError]; when it does, exactly the elements
    of [l] before its first slice have been processed, as if they had been
    the whole selector, so the slots of the integers among them (and the
    mirrors) already hold [v].  The write is thus never performed as a
    whole, and the failure does not undo the part that was. *)
Theorem seq_write_with_slice_fails self l v :
  wf self -> (exists sl, PySlice sl ∈ l) ->
  exists pre sl post self',
    l = pre ++ PySlice sl :: post /\
    Forall (fun o => is_slice o = false) pre /\
    __setitem__ (PySeq l) v self = (Raise AttributeError, self') /\
    __setitem__ (PySeq pre) v self = (Ok tt, self') /\
    forall i0, PyInt i0 ∈ pre ->
      let k := (i0 + _index self) mod max_size self in
      _npa self' !! Z.to_nat k = Some v /\
      _npa self' !! Z.to_nat (k + max_size self) = Some v.
Proof.
  intros Hwf Hsl.
  destruct (first_slice_split l Hsl) as (pre & sl & post & -> & Hpre).
  destruct (seq_write_ints pre v self Hwf Hpre)
    as (self' & Hrun & _ & _ & _ & _ & Hints).
  exists pre, sl, post, self'.
  split; [done|]. split; [done|]. split; [|split; [exact Hrun | exact Hints]].
  rewrite setitem_seq, for_each_app, (seq_run _ _ _ _ _ Hrun).
  reflexivity.
Qed.

(** ** Negative positions *)

Lemma getitem_slice_cases a sl :
  (exists xs, NumPy.getitem_slice a sl = Ok xs) \/
  NumPy.getitem_slice a sl = Raise ValueError.
Proof.
  unfold NumPy.getitem_slice, NumPy.slice_positions, NumPy.slice_indices.
  destruct (default 1 (NumPy.step sl) =? 0); simpl; eauto.
Qed.

(** The last [k] slots of an array: [a[-k:]]. *)
Lemma getitem_slice_tail a k :
  0 < k <= NumPy.len a ->
  NumPy.getitem_slice a (NumPy.Slice (Some (- k)) None None) =
    Ok (drop (Z.to_nat (NumPy.len a - k)) a).
Proof.
  intros Hk. unfold NumPy.getitem_slice, NumPy.slice_positions,
    NumPy.slice_indices, NumPy.clamp. simpl.
  destruct (- k <? 0) eqn:E; [|lia].
  rewrite Z.max_l by lia. simpl.
  rewrite positions_unit by lia.
  rewrite omap_lookup_seqZ by lia.
  rewrite take_ge by (rewrite length_drop; unfold NumPy.len in *; lia).
  do 2 f_equal. lia.
Qed.

Lemma view_length self :
  wf self ->
  length (take (Z.to_nat (max_size self))
            (drop (Z.to_nat (_index self mod max_size self)) (_npa self)))
  = Z.to_nat (max_size self).
Proof.
  intros [Hc Hlen]. pose proof (mod_slot (_index self) _ Hc) as Hk.
  rewrite length_take, length_drop. unfold NumPy.len in *. lia.
Qed.

(** C5, as the code has it: no read or write looks at the sign of a
    position.  On a buffer with [max_size > 0], with [view] the
    [max_size] slots that [getElements] returns:
    - reading the integer [i] with [- max_size <= i < 0] returns the slot
      [max_size + i] of [view], counted from the end, and only
      [i < - max_size] raises [IndexError];
    - reading [rb[-k:]] returns the last [k] slots of [view], and no slice
      read raises [IndexError];
    - writing at any integer [i], negative or not, succeeds and stores at
      slot [(i + _index) % max_size] and its mirror, and no slice write
      raises [IndexError]. *)
Theorem negative_positions_are_accepted self :
  wf self ->
  exists view,
    getElements self = (Ok view, self) /\
    length view = Z.to_nat (max_size self) /\
    (forall i, - max_size self <= i < 0 ->
       exists x,
         view !! Z.to_nat (max_size self + i) = Some x /\
         __getitem__ (PyInt i) self = (Ok (Scalar x), self)) /\
    (forall i, i < - max_size self ->
       __getitem__ (PyInt i) self = (Raise IndexError, self)) /\
    (forall k, 0 < k <= max_size self ->
       __getitem__ (PySlice (NumPy.Slice (Some (- k)) None None)) self =
         (Ok (Array (drop (Z.to_nat (max_size self - k)) view)), self)) /\
    (forall sl, eval (__getitem__ (PySlice sl)) self <> Raise IndexError) /\
    (forall i v,
       __setitem__ (PyInt i) v self =
         (Ok tt,
          set_npa (write2 (max_size self) ((i + _index self) mod max_size self)
                     v (_npa self)) self)) /\
    (forall sl v, eval (__setitem__ (PySlice sl) v) self <> Raise IndexError).
Proof.
  intros Hwf. pose proof Hwf as [Hc Hlen].
  pose proof (getElements_run self Hwf) as Hview.
  pose proof (view_length self Hwf) as Hvlen.
  set (view := take _ _) in *.
  assert (NumPy.len view = max_size self) as Hvlen'
    by (unfold NumPy.len; lia).
  exists view. split; [exact Hview|]. split; [exact Hvlen|].
  split; [|split; [|split; [|split; [|split]]]].
  - intros i Hi.
    destruct (lookup_lt_is_Some_2 view (Z.to_nat (max_size self + i)))
      as [x Hx]; [lia|].
    exists x. split; [exact Hx|].
    unfold __getitem__. rewrite (bind_run _ _ _ _ _ Hview). run.
    unfold NumPy.getitem_int. rewrite Hvlen', norm_index_negative by lia.
    simpl. rewrite Z.add_comm, Hx. reflexivity.
  - intros i Hi.
    unfold __getitem__. rewrite (bind_run _ _ _ _ _ Hview). run.
    unfold NumPy.getitem_int. rewrite Hvlen', norm_index_below by lia.
    reflexivity.
  - intros k Hk.
    unfold __getitem__. rewrite (bind_run _ _ _ _ _ Hview).
    unfold mbind, M_bind, bind, lift. cbn.
    rewrite getitem_slice_tail by lia. by rewrite Hvlen'.
  - intros sl. unfold eval, __getitem__.
    rewrite (bind_run _ _ _ _ _ Hview). run.
    destruct (getitem_slice_cases view sl) as [[xs ->]| ->]; simpl; discriminate.
  - intros i v. simpl. by apply write_index_run.
  - intros sl v. unfold eval. simpl.
    rewrite (write_range_run _ _ _ Hwf). cbv zeta.
    destruct (default 1 (NumPy.step sl) =? 0); simpl; discriminate.
Qed.

(** ** Construction *)

(** C6, as the code has it: [__init__] checks nothing itself.  With
    [max_size >= 0], zero included, it succeeds, the store has exactly
    [2 * max_size] slots and the counter is 0; with [max_size < 0] the
    allocation is refused by numpy with a [ValueError]. *)
Theorem init_outcome (c : Z) (mem : nat -> T) :
  (0 <= c ->
   exists self,
     __init__ c mem = Ok self /\
     NumPy.len (_npa self) = 2 * c /\ max_size self = c /\ _index self = 0) /\
  (c < 0 -> __init__ c mem = Raise ValueError).
Proof.
  split.
  - intros Hc. eexists. split; [by apply init_run|]. simpl.
    split; [|done]. unfold NumPy.len. rewrite length_fmap, length_seq. lia.
  - intros Hc. unfold __init__, NumPy.empty.
    destruct (c * 2 <? 0) eqn:E; [reflexivity | lia].
Qed.

(** ** [getElements] before the buffer is full *)

(** While fewer than [max_size] values were appended, the window that
    [getElements] returns starts at slot [_index]: it begins with
    [max_size - _index] slots that no append has written since the counter
    was zero, and the appended values are its last [_index] slots. *)
Lemma getElements_partial self vals :
  tracks self vals -> _index self < max_size self ->
  exists view,
    getElements self = (Ok view, self) /\
    length view = Z.to_nat (max_size self) /\
    take (Z.to_nat (max_size self - _index self)) view =
      take (Z.to_nat (max_size self - _index self))
        (drop (Z.to_nat (_index self)) (_npa self)) /\
    drop (Z.to_nat (max_size self - _index self)) view = vals.
Proof.
  intros (Hwf & Hidx & Hslots) Hpart. pose proof Hwf as [Hc Hlen].
  eexists. split; [by apply getElements_run|].
  split; [by apply view_length|].
  rewrite Z.mod_small by lia. split.
  - rewrite take_take. f_equal. lia.
  - apply list_eq. intros i. rewrite lookup_drop.
    destruct (decide (i < length vals)%nat) as [Hi|Hi].
    + rewrite lookup_take_lt, lookup_drop by lia.
      destruct (lookup_lt_is_Some_2 vals i) as [x Hx]; [lia|].
      destruct (Hslots _ x Hx ltac:(lia)) as [_ Hhi].
      rewrite Z.mod_small in Hhi by lia.
      rewrite Hx, <- Hhi. f_equal. lia.
    + rewrite lookup_take_ge by lia. symmetry.
      apply lookup_ge_None_2. lia.
Qed.

(** * Further properties of the methods *)

(** ** Where a read looks *)

Lemma view_lookup self (p : nat) :
  wf self -> Z.of_nat p < max_size self ->
  take (Z.to_nat (max_size self))
    (drop (Z.to_nat (_index self mod max_size self)) (_npa self)) !! p =
  _npa self !! Z.to_nat (_index self mod max_size self + Z.of_nat p).
Proof.
  intros [Hc Hlen] Hp. pose proof (mod_slot (_index self) _ Hc) as Hk.
  rewrite lookup_take_lt, lookup_drop by lia. f_equal. lia.
Qed.

(** A position of the doubled store is a slot or the mirror of a slot. *)
Lemma slot_cases q k c :
  0 < c -> 0 <= q < 2 * c -> q mod c = k -> q = k \/ q = k + c.
Proof.
  intros Hc Hq Hk. destruct (Z_lt_le_dec q c) as [Hlt|Hge].
  - left. rewrite Z.mod_small in Hk by lia. lia.
  - right. rewrite <- Hk. symmetry.
    assert (q - c = q mod c); [|lia].
    apply (Z.mod_unique_pos _ _ 1); lia.
Qed.

(** The integer read [rb[i]], for [- max_size <= i < max_size], looks at
    one position of the store, which is the slot of [i + _index] or its
    mirror. *)
Lemma getitem_int_slot self i :
  wf self -> - max_size self <= i < max_size self ->
  (read_position self i = (i + _index self) mod max_size self \/
   read_position self i = (i + _index self) mod max_size self + max_size self) /\
  __getitem__ (PyInt i) self =
    (match _npa self !! Z.to_nat (read_position self i) with
     | Some x => Ok (Scalar x)
     | None => Raise IndexError
     end, self).
Proof.
  intros Hwf Hi. pose proof Hwf as [Hc Hlen]. unfold read_position.
  set (c := max_size self) in *. set (k0 := _index self mod c).
  pose proof (mod_slot (_index self) c Hc) as Hk0. fold k0 in Hk0.
  set (p := if i <? 0 then i + c else i).
  assert (0 <= p < c) as Hp by (unfold p; destruct (i <? 0) eqn:E; lia).
  split.
  - apply slot_cases; [done | lia |].
    unfold k0. rewrite Z.add_mod_idemp_l by lia.
    unfold p. destruct (i <? 0).
    + replace (_index self + (i + c)) with (i + _index self + 1 * c) by lia.
      apply Z_mod_plus_full.
    + f_equal. lia.
  - unfold __getitem__. rewrite (bind_run _ _ _ _ _ (getElements_run self Hwf)).
    run. unfold NumPy.getitem_int.
    assert (NumPy.len (take (Z.to_nat (max_size self))
              (drop (Z.to_nat (_index self mod max_size self)) (_npa self))) = c)
      as -> by (unfold NumPy.len; rewrite view_length by done; lia).
    assert (NumPy.norm_index c i = Ok p) as ->.
    { unfold p. destruct (i <? 0) eqn:E.
      - apply norm_index_negative. lia.
      - apply norm_index_inside. lia. }
    simpl.
    pose proof (view_lookup self (Z.to_nat p) Hwf ltac:(fold c; lia)) as Hlook.
    rewrite Hlook. fold c k0. rewrite Z2Nat.id by lia.
    destruct (_npa self !! Z.to_nat (k0 + p)); reflexivity.
Qed.

(** [a[i:j]] with [0 <= i <= j]: bounds beyond the array are clamped. *)
Lemma getitem_slice_range a i j :
  0 <= i <= j ->
  NumPy.getitem_slice a (NumPy.Slice (Some i) (Some j) None) =
    Ok (take (Z.to_nat (j - i)) (drop (Z.to_nat i) a)).
Proof.
  intros Hij. destruct (Z_le_gt_dec j (NumPy.len a)) as [Hj|Hj].
  { by apply getitem_slice_unit. }
  unfold NumPy.getitem_slice, NumPy.slice_positions, NumPy.slice_indices,
    NumPy.clamp. simpl.
  destruct (i <? 0) eqn:Ei; [lia|]. destruct (j <? 0) eqn:Ej; [lia|].
  rewrite (Z.min_r j) by lia. simpl. unfold NumPy.len in *.
  destruct (Z_le_gt_dec i (Z.of_nat (length a))) as [Hi|Hi].
  - rewrite Z.min_l by lia. rewrite positions_unit by lia.
    rewrite omap_lookup_seqZ by (unfold NumPy.len; lia).
    rewrite !take_ge by (rewrite length_drop; lia). reflexivity.
  - rewrite Z.min_r by lia. rewrite positions_unit by lia.
    rewrite Z.sub_diag, seqZ_nil by lia. simpl.
    rewrite drop_ge by lia. by rewrite take_nil.
Qed.

(** ** Reading a buffer that was filled by appends *)

(** X1: once at least [c] values have been appended to a fresh buffer of
    capacity [c > 0], [getElements()] returns exactly the last [c] of them,
    oldest first. *)
Theorem elements_when_full (c : Z) (mem : nat -> T) (vals : list T) :
  0 < c -> c <= Z.of_nat (length vals) ->
  exists self0,
    __init__ c mem = Ok self0 /\
    eval (appends vals;; getElements) self0 =
      Ok (drop (length vals - Z.to_nat c) vals).
Proof.
  intros Hc Hn.
  destruct (fresh_appends c mem vals Hc)
    as (self0 & self & Hinit & Hrun & Htr & Hms).
  exists self0. split; [exact Hinit|].
  unfold eval. rewrite (seq_run _ _ _ _ _ Hrun).
  rewrite (getElements_full self vals Htr); [by rewrite Hms|].
  destruct Htr as (_ & -> & _). lia.
Qed.

(** Slots at or above the counter are not touched by appends that stay
    below [max_size]. *)
Lemma appends_untouched vals : forall self,
  wf self -> 0 <= _index self ->
  _index self + Z.of_nat (length vals) <= max_size self ->
  exists self',
    appends vals self = (Ok tt, self') /\
    forall p : nat,
      _index self + Z.of_nat (length vals) <= Z.of_nat p < max_size self ->
      _npa self' !! p = _npa self !! p.
Proof.
  induction vals as [|e vals IH]; intros self Hwf Hidx Hroom.
  - exists self. split; [reflexivity | done].
  - pose proof Hwf as [Hc Hlen]. simpl in Hroom.
    pose proof (append_run self e Hwf) as Hrun1.
    set (self1 := {| _npa := _; max_size := _; _index := _ |}) in Hrun1.
    assert (wf self1) as Hwf1.
    { split; simpl; [done|]. unfold NumPy.len in *. by rewrite write2_length. }
    destruct (IH self1 Hwf1) as (self' & Hrun & Hsame); simpl; [lia..|].
    exists self'. split.
    + unfold appends in *. simpl. by rewrite (seq_run _ _ _ _ _ Hrun1).
    + intros p Hp. rewrite Hsame by (simpl; lia). simpl.
      rewrite Z.mod_small by lia.
      apply write2_lookup_ne; lia.
Qed.

(** X2: while fewer than [c] values have been appended to a fresh buffer
    of capacity [c], [getElements()] still returns [c] slots: first the
    [c - N] slots [N .. c-1] of the allocation, which no append has
    written, and then the [N] appended values. *)
Theorem elements_before_full_layout (c : Z) (mem : nat -> T) (vals : list T) :
  Z.of_nat (length vals) < c ->
  exists self0,
    __init__ c mem = Ok self0 /\
    eval (appends vals;; getElements) self0 =
      Ok ((mem <$> seq (length vals) (Z.to_nat c - length vals)) ++ vals).
Proof.
  intros Hn. assert (0 < c) as Hc by lia.
  destruct (fresh_appends c mem vals Hc)
    as (self0 & self & Hinit & Hrun & Htr & Hms).
  exists self0. split; [exact Hinit|].
  destruct (init_wf c mem self0 Hc Hinit) as (Hwf0 & Hms0 & Hidx0).
  destruct (appends_untouched vals self0 Hwf0) as (self' & Hrun' & Hsame);
    [lia..|].
  rewrite Hrun in Hrun'. injection Hrun' as <-.
  pose proof Htr as (Hwf & Hidx & _).
  destruct (getElements_partial self vals Htr ltac:(lia))
    as (view & Hview & Hlen & Hhead & Htail).
  unfold eval. rewrite (seq_run _ _ _ _ _ Hrun), Hview. simpl. f_equal.
  rewrite <- (take_drop (Z.to_nat (max_size self - _index self)) view).
  rewrite Htail, Hhead. f_equal.
  apply list_eq. intros p.
  rewrite init_run in Hinit by lia. injection Hinit as <-. simpl in *.
  destruct (decide (p < Z.to_nat c - length vals)%nat) as [Hp|Hp].
  - rewrite lookup_take_lt, lookup_drop by lia.
    rewrite Hsame by lia.
    rewrite !list_lookup_fmap, !lookup_seq_lt by lia. simpl.
    do 2 f_equal. lia.
  - rewrite lookup_take_ge by lia. symmetry.
    apply lookup_ge_None_2. rewrite length_fmap, length_seq. lia.
Qed.

(** X3: on a buffer of capacity [c > 0] to which [N >= c] values were
    appended, [rb[i]] for [0 <= i < c] is the value appended as number
    [N - c + i] (so [rb[0]] is the oldest kept value), and [rb[i]] for
    [i >= c] raises [IndexError] although the store has [2 * c] slots. *)
Theorem index_read_when_full (c : Z) (mem : nat -> T) (vals : list T) :
  0 < c -> c <= Z.of_nat (length vals) ->
  exists self0,
    __init__ c mem = Ok self0 /\
    (forall i, 0 <= i < c ->
       exists x,
         vals !! Z.to_nat (Z.of_nat (length vals) - c + i) = Some x /\
         eval (appends vals;; __getitem__ (PyInt i)) self0 = Ok (Scalar x)) /\
    (forall i, c <= i ->
       eval (appends vals;; __getitem__ (PyInt i)) self0 = Raise IndexError).
Proof.
  intros Hc Hn.
  destruct (fresh_appends c mem vals Hc)
    as (self0 & self & Hinit & Hrun & Htr & Hms).
  exists self0. split; [exact Hinit|].
  assert (getElements self = (Ok (newest c vals), self)) as Hview.
  { rewrite <- Hms. apply getElements_full; [done|].
    destruct Htr as (_ & -> & _). lia. }
  pose proof (newest_length c vals ltac:(lia)) as Hlen.
  rewrite Z.min_r in Hlen by lia.
  split.
  - intros i Hi.
    destruct (lookup_lt_is_Some_2 vals
                (Z.to_nat (Z.of_nat (length vals) - c + i))) as [x Hx]; [lia|].
    exists x. split; [exact Hx|].
    unfold eval. rewrite (seq_run _ _ _ _ _ Hrun). unfold __getitem__.
    rewrite (bind_run _ _ _ _ _ Hview). run.
    unfold NumPy.getitem_int, NumPy.len. rewrite Hlen.
    rewrite norm_index_inside by lia. simpl.
    unfold newest. rewrite lookup_drop.
    replace (length vals - Z.to_nat c + Z.to_nat i)%nat
      with (Z.to_nat (Z.of_nat (length vals) - c + i)) by lia.
    by rewrite Hx.
  - intros i Hi.
    unfold eval. rewrite (seq_run _ _ _ _ _ Hrun). unfold __getitem__.
    rewrite (bind_run _ _ _ _ _ Hview). run.
    unfold NumPy.getitem_int, NumPy.len, NumPy.norm_index. rewrite Hlen.
    destruct (i <? - c) eqn:E1; [lia|].
    destruct (c <=? i) eqn:E2; [reflexivity | lia].
Qed.

(** X4: on the same full buffer, the range read [rb[i:j]] with
    [0 <= i <= j] returns the values at positions [i .. j-1] of the window
    of the last [c] appended values; a bound beyond [c] is clamped, not an
    error. *)
Theorem range_read_when_full (c : Z) (mem : nat -> T) (vals : list T) (i j : Z) :
  0 < c -> c <= Z.of_nat (length vals) -> 0 <= i <= j ->
  exists self0,
    __init__ c mem = Ok self0 /\
    eval (appends vals;; __getitem__ (PySlice (range i j))) self0 =
      Ok (Array (take (Z.to_nat (j - i))
                   (drop (Z.to_nat i) (drop (length vals - Z.to_nat c) vals)))).
Proof.
  intros Hc Hn Hij.
  destruct (fresh_appends c mem vals Hc)
    as (self0 & self & Hinit & Hrun & Htr & Hms).
  exists self0. split; [exact Hinit|].
  assert (getElements self = (Ok (newest c vals), self)) as Hview.
  { rewrite <- Hms. apply getElements_full; [done|].
    destruct Htr as (_ & -> & _). lia. }
  unfold eval. rewrite (seq_run _ _ _ _ _ Hrun). unfold __getitem__.
  rewrite (bind_run _ _ _ _ _ Hview).
  unfold range, mbind, M_bind, bind, lift. cbn.
  rewrite getitem_slice_range by done. reflexivity.
Qed.

(** ** Writing by index *)

Lemma setitem_int_run self i v :
  wf self ->
  __setitem__ (PyInt i) v self =
    (Ok tt,
     set_npa (write2 (max_size self) ((i + _index self) mod max_size self) v
                (_npa self)) self).
Proof. intros Hwf. simpl. by apply write_index_run. Qed.

Lemma set_npa_wf self a :
  wf self -> length a = length (_npa self) -> wf (set_npa a self).
Proof.
  intros [Hc Hlen] Ha. split; simpl; [done|].
  unfold NumPy.len in *. by rewrite Ha.
Qed.

(** A read of a position whose slot and mirror both hold [v] returns [v]. *)
Lemma getitem_int_holds self i v :
  wf self -> - max_size self <= i < max_size self ->
  _npa self !! Z.to_nat ((i + _index self) mod max_size self) = Some v ->
  _npa self !! Z.to_nat ((i + _index self) mod max_size self + max_size self)
    = Some v ->
  __getitem__ (PyInt i) self = (Ok (Scalar v), self).
Proof.
  intros Hwf Hi Hlo Hhi.
  destruct (getitem_int_slot self i Hwf Hi) as [[Hq|Hq] ->]; rewrite Hq.
  - by rewrite Hlo.
  - by rewrite Hhi.
Qed.

(** X5: round trip of an index write.  On a buffer with [max_size > 0],
    full or not, after [rb[i] = v] with [- max_size <= i < max_size] the
    read [rb[i]] returns [v], and the read [rb[j]] of any position that is
    not congruent to [i] modulo [max_size] returns what it returned before
    the write. *)
Theorem index_write_then_read self i v :
  wf self -> - max_size self <= i < max_size self ->
  eval (__setitem__ (PyInt i) v;; __getitem__ (PyInt i)) self = Ok (Scalar v) /\
  forall j,
    - max_size self <= j < max_size self ->
    (j + _index self) mod max_size self <> (i + _index self) mod max_size self ->
    eval (__setitem__ (PyInt i) v;; __getitem__ (PyInt j)) self =
      eval (__getitem__ (PyInt j)) self.
Proof.
  intros Hwf Hi. pose proof Hwf as [Hc Hlen].
  pose proof (setitem_int_run self i v Hwf) as Hrun.
  set (k := (i + _index self) mod max_size self) in *.
  pose proof (mod_slot (i + _index self) _ Hc) as Hk. fold k in Hk.
  set (self1 := set_npa _ self) in Hrun.
  assert (wf self1) as Hwf1 by (apply set_npa_wf; [done | apply write2_length]).
  unfold eval. split.
  - rewrite (seq_run _ _ _ _ _ Hrun).
    rewrite (getitem_int_holds self1 i v Hwf1 Hi); [done|..]; simpl; fold k.
    + apply write2_lookup_lo; lia.
    + apply write2_lookup_hi; lia.
  - intros j Hj Hne. rewrite (seq_run _ _ _ _ _ Hrun).
    destruct (getitem_int_slot self1 j Hwf1 Hj) as [Hq1 ->].
    destruct (getitem_int_slot self j Hwf Hj) as [Hq ->].
    change (read_position self1 j) with (read_position self j) in *.
    pose proof (mod_slot (j + _index self) _ Hc) as Hkj.
    simpl. rewrite write2_lookup_ne by (fold k; lia). reflexivity.
Qed.

(** X6: an index write never fails and takes its index modulo
    [max_size]: [rb[i + m * max_size] = v] does exactly what [rb[i] = v]
    does, for every integer [m], so an index beyond the window wraps
    around instead of raising. *)
Theorem index_write_wraps self i m v :
  wf self ->
  eval (__setitem__ (PyInt i) v) self = Ok tt /\
  __setitem__ (PyInt (i + m * max_size self)) v self =
    __setitem__ (PyInt i) v self.
Proof.
  intros Hwf. unfold eval. rewrite !setitem_int_run by done.
  split; [reflexivity|].
  replace (i + m * max_size self + _index self)
    with (i + _index self + m * max_size self) by lia.
  by rewrite Z_mod_plus_full.
Qed.

(** X7: a write through a list or tuple of selectors without a slice
    succeeds, and afterwards every integer [i] of the list, with
    [- max_size <= i < max_size], reads back as [v]. *)
Theorem seq_write_then_read self l v :
  wf self -> Forall (fun o => is_slice o = false) l ->
  exists self',
    __setitem__ (PySeq l) v self = (Ok tt, self') /\
    forall i,
      PyInt i ∈ l -> - max_size self <= i < max_size self ->
      __getitem__ (PyInt i) self' = (Ok (Scalar v), self').
Proof.
  intros Hwf Hl.
  destruct (seq_write_ints l v self Hwf Hl)
    as (self' & Hrun & Hwf' & Hms & Hidx & _ & Hints).
  exists self'. split; [exact Hrun|].
  intros i Hi Hrange. destruct (Hints i Hi) as [Hlo Hhi].
  apply getitem_int_holds; rewrite ?Hms, ?Hidx; done.
Qed.

(** ** Writing a range *)

Lemma seqZ_to_nat_elem (p : nat) (lo n : Z) :
  0 <= lo -> p ∈ Z.to_nat <$> seqZ lo n <-> lo <= Z.of_nat p < lo + n.
Proof.
  intros Hlo. rewrite list_elem_of_fmap. split.
  - intros (q & -> & Hq). apply elem_of_seqZ in Hq. lia.
  - intros Hp. exists (Z.of_nat p). split; [lia|]. by apply elem_of_seqZ.
Qed.

(** The store after a range write that does not wrap, position by
    position. *)
Lemma range_write_store self (start stop : Z) v :
  wf self ->
  let c := max_size self in
  let a := (start + _index self) mod c in
  let b := (stop + _index self) mod c in
  a <= b ->
  exists self',
    __setitem__ (PySlice (range start stop)) v self = (Ok tt, self') /\
    wf self' /\ max_size self' = c /\ _index self' = _index self /\
    forall p : nat,
      Z.of_nat p < 2 * c ->
      (a <= Z.of_nat p mod c < b -> _npa self' !! p = Some v) /\
      (~ a <= Z.of_nat p mod c < b -> _npa self' !! p = _npa self !! p).
Proof.
  intros Hwf c a b Hab. pose proof Hwf as [Hc Hlen]. fold c in Hc, Hlen.
  pose proof (mod_slot (start + _index self) _ Hc) as Ha.
  pose proof (mod_slot (stop + _index self) _ Hc) as Hb.
  fold c a in Ha. fold c b in Hb.
  eexists. split.
  { simpl. rewrite (write_range_run _ _ _ Hwf). simpl. fold c a b.
    rewrite !positions_unit by lia. reflexivity. }
  split; [apply set_npa_wf; [done | by rewrite !fill_length]|].
  split; [reflexivity|]. split; [reflexivity|].
  intros p Hp. simpl. unfold NumPy.len in Hlen.
  replace (b + c - (a + c)) with (b - a) by lia.
  destruct (Z_lt_le_dec (Z.of_nat p) c) as [Hlt|Hge].
  - rewrite Z.mod_small by lia.
    rewrite (fill_lookup_notin _ (seqZ (a + c) (b - a)))
      by (rewrite seqZ_to_nat_elem by lia; lia).
    split; intros Hin.
    + apply fill_lookup_in; [rewrite seqZ_to_nat_elem by lia; lia | lia].
    + apply fill_lookup_notin. rewrite seqZ_to_nat_elem by lia. lia.
  - assert (Z.of_nat p mod c = Z.of_nat p - c) as ->.
    { symmetry. apply (Z.mod_unique_pos _ _ 1); lia. }
    split; intros Hin.
    + apply fill_lookup_in; [rewrite seqZ_to_nat_elem by lia; lia|].
      rewrite fill_length. lia.
    + rewrite !fill_lookup_notin; [done|..];
        rewrite seqZ_to_nat_elem by lia; lia.
Qed.

(** X8: a range write [rb[start:stop] = v] that does not wrap, that is
    with [a = (start + _index) % max_size <= b = (stop + _index) % max_size],
    succeeds, keeps the counter, and stores [v] at exactly the slots
    [a .. b-1] and their mirrors: every other position of the store keeps
    its value.  The number of slots written is [b - a], whatever
    [stop - start] is. *)
Theorem range_write_effect self (start stop : Z) v :
  wf self ->
  (start + _index self) mod max_size self <=
    (stop + _index self) mod max_size self ->
  exists self',
    __setitem__ (PySlice (range start stop)) v self = (Ok tt, self') /\
    max_size self' = max_size self /\ _index self' = _index self /\
    length (_npa self') = length (_npa self) /\
    forall p : nat,
      Z.of_nat p < 2 * max_size self ->
      ((start + _index self) mod max_size self <= Z.of_nat p mod max_size self
         < (stop + _index self) mod max_size self ->
       _npa self' !! p = Some v) /\
      (~ (start + _index self) mod max_size self <= Z.of_nat p mod max_size self
           < (stop + _index self) mod max_size self ->
       _npa self' !! p = _npa self !! p).
Proof.
  intros Hwf Hab.
  destruct (range_write_store self start stop v Hwf Hab)
    as (self' & Hrun & [_ Hlen'] & Hms & Hidx & Hstore).
  exists self'. split; [exact Hrun|]. split; [exact Hms|]. split; [exact Hidx|].
  split; [|exact Hstore].
  destruct Hwf as [_ Hlen]. unfold NumPy.len in *. lia.
Qed.

(** X9: round trip of a range write.  When the range is shorter than
    [max_size] and does not wrap, after [rb[start:stop] = v] every position
    [i] of the range, with [- max_size <= i < max_size], reads back as
    [v]. *)
Theorem range_write_then_read self (start stop i : Z) v :
  wf self ->
  (start + _index self) mod max_size self <=
    (stop + _index self) mod max_size self ->
  stop - start < max_size self ->
  start <= i < stop -> - max_size self <= i < max_size self ->
  eval (__setitem__ (PySlice (range start stop)) v;; __getitem__ (PyInt i)) self
    = Ok (Scalar v).
Proof.
  intros Hwf Hab Hshort Hi Hrange. pose proof Hwf as [Hc Hlen].
  destruct (range_write_store self start stop v Hwf Hab)
    as (self' & Hrun & Hwf' & Hms & Hidx & Hstore).
  set (c := max_size self) in *.
  set (a := (start + _index self) mod c) in *.
  set (b := (stop + _index self) mod c) in *.
  pose proof (mod_slot (start + _index self) _ Hc) as Ha.
  pose proof (mod_slot (stop + _index self) _ Hc) as Hb.
  fold c a in Ha. fold c b in Hb.
  pose proof (Z.div_mod (start + _index self) c ltac:(lia)) as Hda.
  pose proof (Z.div_mod (stop + _index self) c ltac:(lia)) as Hdb.
  fold a in Hda. fold b in Hdb.
  assert (b - a = stop - start) as Hlen_eq.
  { assert (stop - start =
            c * ((stop + _index self) / c - (start + _index self) / c) + (b - a))
      as Hd by lia.
    destruct (Z_dec 0 ((stop + _index self) / c - (start + _index self) / c))
      as [[Hneg|Hpos]|Hz]; nia. }
  assert ((i + _index self) mod c = a + (i - start)) as Hslot.
  { symmetry. apply (Z.mod_unique_pos _ _ ((start + _index self) / c)); lia. }
  unfold eval. rewrite (seq_run _ _ _ _ _ Hrun).
  rewrite (getitem_int_holds self' i v Hwf'); [done|..];
    rewrite ?Hms, ?Hidx; fold c; try lia; rewrite Hslot.
  - destruct (Hstore (Z.to_nat (a + (i - start))) ltac:(lia)) as [Hin _].
    apply Hin. rewrite Z2Nat.id, Z.mod_small by lia. lia.
  - destruct (Hstore (Z.to_nat (a + (i - start) + c)) ltac:(lia)) as [Hin _].
    apply Hin. rewrite Z2Nat.id by lia.
    replace ((a + (i - start) + c) mod c) with (a + (i - start)); [lia|].
    apply (Z.mod_unique_pos _ _ 1); lia.
Qed.

Lemma positions_same (lo st : Z) : NumPy.positions lo lo st = [].
Proof.
  unfold NumPy.positions, NumPy.slice_length.
  rewrite Z.ltb_irrefl. by destruct (st <? 0).
Qed.

(** X10: a range write whose two bounds fall on the same slot, that is
    with [(start + _index) % max_size = (stop + _index) % max_size], stores
    nothing, whatever its step, and does not raise; a missing bound counts
    as 0.  In particular [rb[:] = v] and [rb[0:max_size] = v], which name
    the whole window, leave the buffer as it was. *)
Theorem range_write_same_slot_is_dropped self (ostart ostop stp : option Z) v :
  wf self -> default 1 stp <> 0 ->
  (default 0 ostart + _index self) mod max_size self =
    (default 0 ostop + _index self) mod max_size self ->
  __setitem__ (PySlice (NumPy.Slice ostart ostop stp)) v self = (Ok tt, self) /\
  __setitem__ (PySlice (NumPy.Slice None None None)) v self = (Ok tt, self) /\
  __setitem__ (PySlice (range 0 (max_size self))) v self = (Ok tt, self).
Proof.
  intros Hwf Hst Hsame. pose proof Hwf as [Hc _].
  assert (forall sl,
            default 1 (NumPy.step sl) <> 0 ->
            (default 0 (NumPy.start sl) + _index self) mod max_size self =
              (default 0 (NumPy.stop sl) + _index self) mod max_size self ->
            __setitem__ (PySlice sl) v self = (Ok tt, self)) as Hdrop.
  { intros sl Hst' Hsame'. simpl. rewrite (write_range_run _ _ _ Hwf). cbv zeta.
    destruct (default 1 (NumPy.step sl) =? 0) eqn:E; [lia|].
    rewrite Hsame', !positions_same. simpl. by rewrite set_npa_same. }
  split; [by apply Hdrop|]. split; apply Hdrop; simpl; try done.
  replace (max_size self + _index self)
    with (0 + _index self + 1 * max_size self) by lia.
  by rewrite Z_mod_plus_full.
Qed.

(** ** A buffer of capacity zero *)

(** X11: [NumPyRingBuffer(0)] is constructed without complaint, with an
    empty store, but it cannot be used: [append], [getElements], every
    integer read and every integer write raise [ZeroDivisionError] (from
    [% max_size]) and leave the object as it was, while [len] is 0 and
    [isFull()] is true. *)
Theorem zero_capacity_unusable (mem : nat -> T) :
  exists self0,
    __init__ 0 mem = Ok self0 /\ _npa self0 = [] /\
    (forall e, append e self0 = (Raise ZeroDivisionError, self0)) /\
    getElements self0 = (Raise ZeroDivisionError, self0) /\
    (forall i, __getitem__ (PyInt i) self0 = (Raise ZeroDivisionError, self0)) /\
    (forall i v,
       __setitem__ (PyInt i) v self0 = (Raise ZeroDivisionError, self0)) /\
    eval __len__ self0 = Ok 0 /\
    eval isFull self0 = Ok true.
Proof. eexists. repeat split. Qed.

(** ** Reading through a list or tuple of selectors *)

Lemma read_each_acc (cur : list T) l : forall acc,
  read_each cur l acc =
    result_bind (read_each cur l []) (fun xs => Ok (acc ++ xs)).
Proof.
  induction l as [|o l IH]; intros acc; simpl.
  - by rewrite app_nil_r.
  - destruct o as [i|sl| |].
    + destruct (NumPy.getitem_int cur i) as [x|e]; simpl; [|done].
      rewrite (IH (acc ++ [x])), (IH [x]).
      destruct (read_each cur l []); simpl; [|done]. by rewrite <- app_assoc.
    + destruct (NumPy.getitem_slice cur sl) as [xs|e]; simpl; [|done].
      rewrite (IH (acc ++ xs)), (IH xs).
      destruct (read_each cur l []); simpl; [|done]. by rewrite <- app_assoc.
    + apply IH.
    + apply IH.
Qed.

Lemma read_each_app (cur : list T) l1 l2 : forall acc,
  read_each cur (l1 ++ l2) acc =
    result_bind (read_each cur l1 acc) (read_each cur l2).
Proof.
  induction l1 as [|o l1 IH]; intros acc; simpl; [done|].
  destruct o as [i|sl| |].
  - destruct (NumPy.getitem_int cur i); simpl; [apply IH | done].
  - destruct (NumPy.getitem_slice cur sl); simpl; [apply IH | done].
  - apply IH.
  - apply IH.
Qed.

(** X12: a read through a list or tuple of selectors returns the
    concatenation, in the order of the list, of what its parts return:
    reading [l1 ++ l2] gives the elements read through [l1] followed by
    those read through [l2], and raises what the first failing part
    raises; reading the one-element list of an integer or of a slice gives
    what that selector returns on its own, as an array; and an element
    that is neither an integer nor a slice contributes nothing. *)
Theorem seq_read_concatenates self :
  (forall l1 l2,
     eval (__getitem__ (PySeq (l1 ++ l2))) self =
       match eval (__getitem__ (PySeq l1)) self with
       | Raise e => Raise e
       | Ok r1 =>
           match eval (__getitem__ (PySeq l2)) self with
           | Raise e => Raise e
           | Ok r2 => Ok (Array (flat r1 ++ flat r2))
           end
       end) /\
  (forall i,
     eval (__getitem__ (PySeq [PyInt i])) self =
       match eval (__getitem__ (PyInt i)) self with
       | Ok r => Ok (Array (flat r))
       | Raise e => Raise e
       end) /\
  (forall sl,
     eval (__getitem__ (PySeq [PySlice sl])) self =
       match eval (__getitem__ (PySlice sl)) self with
       | Ok r => Ok (Array (flat r))
       | Raise e => Raise e
       end) /\
  (forall l' l,
     eval (__getitem__ (PySeq (PySeq l' :: l))) self =
       eval (__getitem__ (PySeq l)) self) /\
  (forall l,
     eval (__getitem__ (PySeq (PyOther :: l))) self =
       eval (__getitem__ (PySeq l)) self).
Proof.
  split; [|split; [|split; [|split]]].
  - intros l1 l2. unfold eval, __getitem__. run.
    destruct (getElements self) as [[cur|e] self1]; simpl; [|done].
    rewrite read_each_app.
    destruct (read_each cur l1 []) as [xs|e]; simpl; [|done].
    rewrite (read_each_acc cur l2 xs).
    destruct (read_each cur l2 []) as [ys|e]; simpl; done.
  - intros i. unfold eval, __getitem__. run.
    destruct (getElements self) as [[cur|e] self1]; simpl; [|done].
    destruct (NumPy.getitem_int cur i); done.
  - intros sl. unfold eval, __getitem__. run.
    destruct (getElements self) as [[cur|e] self1]; simpl; [|done].
    destruct (NumPy.getitem_slice cur sl); done.
  - intros l' l. unfold eval, __getitem__. run.
    destruct (getElements self) as [[cur|e] self1]; done.
  - intros l. unfold eval, __getitem__. run.
    destruct (getElements self) as [[cur|e] self1]; done.
Qed.

(** ** What reads do not do *)

(** X13: the reads defined by the class change nothing, whether they
    return or raise: [getElements], [isFull], [len] and [__getitem__] with
    any selector (integer, slice, list or tuple, or an unsupported one)
    leave the store, [max_size] and the counter as they were.  Methods
    forwarded by [__getattr__] are not among them: they act on a view of
    the store. *)
Theorem reads_leave_the_object self :
  exec getElements self = self /\
  exec isFull self = self /\
  exec __len__ self = self /\
  (forall indexs, exec (__getitem__ indexs) self = self).
Proof.
  split; [symmetry; apply getElements_pure|].
  split; [symmetry; apply isFull_pure|].
  split; [symmetry; apply len_pure|].
  intros indexs. symmetry. apply getitem_pure.
Qed.

(** ** Appending to a buffer whose slots are all mirrored *)

Lemma next_slot i c :
  0 < c ->
  (i + 1) mod c = if i mod c + 1 <? c then i mod c + 1 else 0.
Proof.
  intros Hc. pose proof (mod_slot i c Hc) as Hk.
  rewrite <- Z.add_mod_idemp_l by lia.
  destruct (i mod c + 1 <? c) eqn:E.
  - apply Z.mod_small. lia.
  - replace (i mod c + 1) with c by lia. apply Z_mod_same_full.
Qed.

(** X14: sliding window.  On a buffer with [max_size > 0] whose slots
    are all mirrored (as they are once the buffer has been full), an
    [append(e)] turns the window [getElements()] returns into the same
    window without its first element and with [e] at the end: exactly the
    oldest element is evicted. *)
Theorem append_slides_window self e :
  wf self ->
  (forall s : nat, Z.of_nat s < max_size self -> mirrored self s) ->
  exists view,
    eval getElements self = Ok view /\
    eval (append e;; getElements) self = Ok (drop 1 view ++ [e]).
Proof.
  intros Hwf Hmir. pose proof Hwf as [Hc Hlen].
  eexists. unfold eval. split; [by rewrite getElements_run|].
  pose proof (append_run self e Hwf) as Hrun.
  set (self1 := {| _npa := _; max_size := _; _index := _ |}) in Hrun.
  assert (wf self1) as Hwf1.
  { split; simpl; [done|]. unfold NumPy.len in *. by rewrite write2_length. }
  rewrite (seq_run _ _ _ _ _ Hrun), (getElements_run self1 Hwf1). simpl.
  f_equal.
  set (c := max_size self) in *. set (k := _index self mod c).
  pose proof (mod_slot (_index self) c Hc) as Hk. fold k in Hk.
  pose proof (next_slot (_index self) c Hc) as Hnext. fold k in Hnext.
  rewrite Hnext. unfold NumPy.len in Hlen.
  apply list_eq. intros p.
  destruct (decide (p < Z.to_nat c)%nat) as [Hp|Hp].
  2:{ rewrite lookup_take_ge by lia. symmetry. apply lookup_ge_None_2.
      rewrite length_app, length_drop, length_take, length_drop. simpl. lia. }
  rewrite lookup_take_lt, lookup_drop by lia.
  destruct (decide (p = Z.to_nat c - 1)%nat) as [->|Hlast].
  - (* the last position holds the new element *)
    rewrite lookup_app_r
      by (rewrite length_drop, length_take, length_drop; lia).
    rewrite length_drop, length_take, length_drop.
    replace (Z.to_nat c - 1 - (Z.to_nat c `min` (length (_npa self) - Z.to_nat k) - 1))%nat
      with 0%nat by lia.
    simpl. destruct (k + 1 <? c) eqn:E.
    + replace (Z.to_nat (k + 1) + (Z.to_nat c - 1))%nat
        with (Z.to_nat (k + c)) by lia.
      apply write2_lookup_hi; unfold NumPy.len; lia.
    + replace (Z.to_nat 0 + (Z.to_nat c - 1))%nat with (Z.to_nat k) by lia.
      apply write2_lookup_lo; unfold NumPy.len; lia.
  - (* the others hold what was one position further on *)
    rewrite lookup_app_l
      by (rewrite length_drop, length_take, length_drop; lia).
    rewrite lookup_drop, lookup_take_lt, lookup_drop by lia.
    destruct (k + 1 <? c) eqn:E.
    + rewrite write2_lookup_ne by lia. f_equal. lia.
    + rewrite write2_lookup_ne by lia.
      destruct (Hmir p ltac:(lia)) as (x & Hlo & Hhi). fold c in Hhi.
      replace (Z.to_nat 0 + p)%nat with p by lia.
      replace (Z.to_nat k + (1 + p))%nat with (p + Z.to_nat c)%nat by lia.
      by rewrite Hlo, Hhi.
Qed.

(** ** Any calls, with clears among them *)

Lemma perform_all_cons cl cs self :
  perform_all (cl :: cs) self = perform_all cs (perform cl self).
Proof. reflexivity. Qed.

Lemma perform_counter cl self (log : list T) :
  wf self -> _index self = Z.of_nat (length log) ->
  _index (perform cl self) = Z.of_nat (length (appended_after log [cl])).
Proof.
  intros Hwf Hidx. destruct cl as [e| | | |indexs v|indexs| |]; simpl.
  - unfold exec. rewrite append_run by done. simpl.
    rewrite length_app. simpl. lia.
  - by rewrite <- (getElements_pure self).
  - by rewrite <- (isFull_pure self).
  - reflexivity.
  - destruct (setitem_keeps indexs v self Hwf) as (_ & _ & -> & _). done.
  - by rewrite <- (getitem_pure indexs self).
  - by rewrite <- (target_pure self).
  - by rewrite <- (len_pure self).
Qed.

Lemma perform_all_counter cs : forall self (log : list T),
  wf self -> _index self = Z.of_nat (length log) ->
  wf (perform_all cs self) /\
  max_size (perform_all cs self) = max_size self /\
  _index (perform_all cs self) = Z.of_nat (length (appended_after log cs)).
Proof.
  induction cs as [|cl cs IH]; intros self log Hwf Hidx; [done|].
  destruct (perform_keeps cl self Hwf) as (Hwf1 & Hms1 & _).
  pose proof (perform_counter cl self log Hwf Hidx) as Hidx1.
  destruct (IH _ _ Hwf1 Hidx1) as (Hwf' & Hms' & Hidx').
  rewrite perform_all_cons. split; [done|]. split; [congruence|].
  exact Hidx'.
Qed.

Lemma perform_all_tracks cs : forall self (log : list T),
  tracks self log -> Forall (fun cl => is_write cl = false) cs ->
  tracks (perform_all cs self) (appended_after log cs) /\
  max_size (perform_all cs self) = max_size self.
Proof.
  induction cs as [|cl cs IH]; intros self log Htr Hcs; [done|].
  inversion Hcs as [|? ? Hcl Hcs']; subst.
  rewrite perform_all_cons.
  assert (tracks (perform cl self) (appended_after log [cl]) /\
          max_size (perform cl self) = max_size self) as [Htr1 Hms1].
  { destruct cl as [e| | | |indexs v|indexs| |]; simpl in *; try discriminate.
    - destruct (append_tracks self log e Htr) as (self1 & Hrun & Htr1 & Hms1).
      unfold exec. by rewrite Hrun.
    - by rewrite <- (getElements_pure self).
    - by rewrite <- (isFull_pure self).
    - split; [|done]. destruct Htr as (Hwf & _). by apply tracks_start.
    - by rewrite <- (getitem_pure indexs self).
    - by rewrite <- (target_pure self).
    - by rewrite <- (len_pure self). }
  destruct (IH _ _ Htr1 Hcs') as [Htr' Hms'].
  split; [exact Htr' | congruence].
Qed.

(** X15: after any calls whatever on a buffer freshly constructed with
    capacity [c > 0] (appends, reads, writes, clears, failing or not),
    [len] is the minimum of [c] and the number of values appended since
    the last [clear()]: writes and reads never change the length. *)
Theorem len_after_calls (c : Z) (mem : nat -> T) (cs : list call) :
  0 < c ->
  exists self0,
    __init__ c mem = Ok self0 /\
    eval __len__ (perform_all cs self0) =
      Ok (Z.min (Z.of_nat (length (appended cs))) c).
Proof.
  intros Hc. eexists. split; [by apply init_run; lia|].
  destruct (init_wf c mem _ Hc (init_run c mem ltac:(lia))) as (Hwf & Hms & Hidx).
  destruct (perform_all_counter cs _ [] Hwf Hidx) as (_ & Hms' & Hidx').
  unfold eval. rewrite len_run. simpl.
  unfold appended. by rewrite Hidx', Hms', Hms.
Qed.

(** X16: after any appends, clears and reads on a buffer freshly
    constructed with capacity [c > 0], a numpy reduction called on the
    buffer is computed over the last [c] (or fewer) of the values appended
    since the last [clear()], oldest first: what was stored before a clear
    is never seen by a reduction. *)
Theorem reduction_after_calls {R} (red : list T -> R)
    (c : Z) (mem : nat -> T) (cs : list call) :
  0 < c -> Forall (fun cl => is_write cl = false) cs ->
  exists self0,
    __init__ c mem = Ok self0 /\
    eval (__getattr__ red) (perform_all cs self0) =
      Ok (red (newest c (appended cs))).
Proof.
  intros Hc Hcs. eexists. split; [by apply init_run; lia|].
  destruct (init_wf c mem _ Hc (init_run c mem ltac:(lia))) as (Hwf & Hms & Hidx).
  destruct (perform_all_tracks cs _ [] (tracks_start _ Hwf Hidx) Hcs)
    as [Htr Hms'].
  unfold eval, __getattr__.
  rewrite (bind_run _ _ _ _ _ (target_tracks _ _ Htr)). simpl.
  unfold appended. by rewrite Hms', Hms.
Qed.

(** X17: [clear()] hides nothing from the positional reads.  On a buffer
    with [max_size > 0], right after [clear()] the length is 0, yet
    [getElements()] returns the first [max_size] slots of the store with
    the values they held before, and [rb[i]] for [0 <= i < max_size]
    returns slot [i] without raising. *)
Theorem clear_keeps_data_readable self :
  wf self ->
  eval (clear;; __len__) self = Ok 0 /\
  eval (clear;; getElements) self =
    Ok (take (Z.to_nat (max_size self)) (_npa self)) /\
  forall i, 0 <= i < max_size self ->
    exists x,
      _npa self !! Z.to_nat i = Some x /\
      eval (clear;; __getitem__ (PyInt i)) self = Ok (Scalar x).
Proof.
  intros Hwf. pose proof Hwf as [Hc Hlen].
  assert (clear self = (Ok tt, set_index 0 self)) as Hclear by reflexivity.
  assert (wf (set_index 0 self)) as Hwf0 by done.
  unfold eval. split; [|split].
  - rewrite (seq_run _ _ _ _ _ Hclear), len_run. simpl. f_equal. lia.
  - rewrite (seq_run _ _ _ _ _ Hclear), (getElements_run _ Hwf0). simpl.
    by rewrite Z.mod_0_l by lia.
  - intros i Hi. unfold NumPy.len in Hlen.
    destruct (lookup_lt_is_Some_2 (_npa self) (Z.to_nat i)) as [x Hx]; [lia|].
    exists x. split; [exact Hx|].
    rewrite (seq_run _ _ _ _ _ Hclear).
    destruct (getitem_int_slot (set_index 0 self) i Hwf0) as [_ ->];
      [simpl; lia|].
    unfold read_position. simpl.
    rewrite Z.mod_0_l by lia.
    destruct (i <? 0) eqn:E; [lia|]. simpl.
    by rewrite Z.add_0_l, Hx.
Qed.

End Properties.

(** * Concrete buffers of integers *)

Section Examples.

Lemma demo_wf : wf demo.
Proof. split; [simpl; lia | reflexivity]. Defined.

(** The scenario of the class documentation: capacity 10, the integers
    0 .. 24 appended in order. *)
Example scenario_0_to_24 (self0 : NumPyRingBuffer Z) :
  __init__ 10 zeros = Ok self0 ->
  let fed := appends (Z.of_nat <$> seq 0 25) in
  eval fed self0 = Ok tt /\
  eval (fed;; __len__) self0 = Ok 10 /\
  eval (fed;; isFull) self0 = Ok true /\
  eval (fed;; getElements) self0 =
    Ok [15; 16; 17; 18; 19; 20; 21; 22; 23; 24] /\
  eval (fed;; __getattr__ sum) self0 = Ok 195 /\
  eval (fed;; __getitem__ (PySlice (NumPy.Slice None (Some 3) None))) self0 =
    Ok (Array [15; 16; 17]) /\
  eval (fed;; __getitem__ (PySlice (NumPy.Slice (Some (-3)) None None))) self0 =
    Ok (Array [22; 23; 24]).
Proof.
  intros Hinit. vm_compute in Hinit. injection Hinit as <-.
  repeat split; vm_compute; reflexivity.
Qed.

(** C8 at a failing input.  Capacity 3, the values 1 to 5 appended to a
    fresh buffer, then [clear()] and [append(9)], whatever the allocation
    [mem] contains: [len] is 1 and the array a reduction sees is [[9]], but
    [getElements] returns the slots 1, 2, 3 of the store, which begin with
    the stale values 5 and 3, and [rb[0]] returns 5: read by position, the
    window of length 1 is not the appended value. *)
Theorem clear_then_append_reads_stale (mem : nat -> Z) :
  exists self0 self,
    __init__ 3 mem = Ok self0 /\
    (appends [1; 2; 3; 4; 5];; clear;; append 9) self0 = (Ok tt, self) /\
    eval __len__ self = Ok 1 /\
    eval __getattr__target self = Ok [9] /\
    eval getElements self = Ok [5; 3; 9] /\
    eval (__getitem__ (PyInt 0)) self = Ok (Scalar 5) /\
    take 1 [5; 3; 9] <> [9].
Proof.
  exists {| _npa := mem <$> seq 0 6; max_size := 3; _index := 0 |},
         {| _npa := [9; 5; 3; 9; 5; 3]; max_size := 3; _index := 1 |}.
  split; [reflexivity|]. split; [vm_compute; reflexivity|].
  split; [vm_compute; reflexivity|]. split; [vm_compute; reflexivity|].
  split; [vm_compute; reflexivity|]. split; [vm_compute; reflexivity|].
  simpl. intros [=].
Qed.

(** C1 at a failing input.  Capacity 3, the values 1 and 2 appended to a
    fresh buffer, whatever the allocation [mem] contains: [len] is 2 and
    [getElements] returns the never-written slot 2 followed by 1 and 2, so
    its first two slots are not the two appended values. *)
Theorem getElements_before_full (mem : nat -> Z) :
  exists self0 self,
    __init__ 3 mem = Ok self0 /\
    appends [1; 2] self0 = (Ok tt, self) /\
    eval __len__ self = Ok 2 /\
    eval getElements self = Ok [mem 2%nat; 1; 2] /\
    take 2 [mem 2%nat; 1; 2] <> newest 3 [1; 2].
Proof.
  eexists _, _. split; [reflexivity|]. split; [reflexivity|].
  split; [reflexivity|]. split; [reflexivity|].
  unfold newest. simpl. intros [=].
Qed.

Lemma len_after_appends_witness :
  0 < 3 /\
  exists self0,
    __init__ 3 zeros = Ok self0 /\
    eval (appends [1; 2; 3; 4];; __len__) self0 =
      Ok (Z.min (Z.of_nat (length [1; 2; 3; 4])) 3).
Proof.
  split; [lia | apply (len_after_appends 3 zeros [1; 2; 3; 4]); lia].
Defined.

Lemma reduction_over_window_witness :
  0 < 3 /\
  exists self0,
    __init__ 3 zeros = Ok self0 /\
    eval (appends [1; 2; 3; 4];; __getattr__ sum) self0 = Ok 9.
Proof.
  split; [lia|].
  destruct (reduction_over_window sum 3 zeros [1; 2; 3; 4] ltac:(lia))
    as (self0 & Hinit & Hred & _).
  exists self0. split; [exact Hinit | exact Hred].
Defined.

(** C4 as stated fails: capacity 2 over memory holding 0, 1, 2, 3; after
    one append slot 1 holds 1 and slot 3 holds 3. *)
Lemma mirror_counterexample :
  exists self0,
    __init__ 2 count = Ok self0 /\
    _npa (perform_all [Append 5] self0) = [5; 1; 5; 3] /\
    ~ (forall s : nat, (s < 2)%nat ->
         _npa (perform_all [Append 5] self0) !! s =
         _npa (perform_all [Append 5] self0) !! (s + 2)%nat).
Proof.
  eexists. split; [reflexivity|]. split; [reflexivity|].
  intros H. specialize (H 1%nat ltac:(lia)). discriminate H.
Qed.

Lemma mirror_after_calls_witness :
  0 < 2 /\
  exists self0,
    __init__ 2 count = Ok self0 /\
    mirrored
      (perform_all [Append 5; SetItem (PySlice (range 0 1)) 7; Clear; Append 6]
         self0) 0.
Proof.
  split; [lia|].
  destruct (proj2 (proj2 (proj2 (mirror_after_calls (T:=Z)))) 2 count
              [Append 5; SetItem (PySlice (range 0 1)) 7; Clear; Append 6]
              ltac:(lia))
    as (self0 & Hinit & _ & _ & Hslots).
  exists self0. split; [exact Hinit|].
  apply Hslots; [lia|]. left.
  rewrite init_run in Hinit by lia. injection Hinit as <-.
  vm_compute. reflexivity.
Defined.

(** C5 as stated fails: on [demo], reading position -1 returns the newest
    value and writing at position -1 succeeds. *)
Lemma negative_index_counterexample :
  __getitem__ (PyInt (-1)) demo = (Ok (Scalar 5), demo) /\
  eval (__getitem__ (PyInt (-1))) demo <> Raise IndexError /\
  eval (__getitem__ (PySlice (NumPy.Slice (Some (-2)) None None))) demo =
    Ok (Array [4; 5]) /\
  eval (__setitem__ (PyInt (-1)) 9) demo = Ok tt.
Proof. repeat split; try reflexivity. discriminate. Qed.

Lemma negative_positions_are_accepted_witness :
  wf demo /\
  __getitem__ (PySlice (NumPy.Slice (Some (-2)) None None)) demo =
    (Ok (Array [4; 5]), demo).
Proof.
  split; [exact demo_wf|].
  destruct (negative_positions_are_accepted demo demo_wf)
    as (view & Hview & _ & _ & _ & Htail & _).
  specialize (Htail 2 ltac:(simpl; lia)).
  vm_compute in Hview. injection Hview as <-. exact Htail.
Defined.

(** C6 as stated fails: capacity 0 is accepted. *)
Lemma init_zero_counterexample :
  __init__ 0 zeros = Ok {| _npa := []; max_size := 0; _index := 0 |} /\
  ~ (exists e, __init__ 0 zeros = Raise e).
Proof. split; [reflexivity|]. intros [e H]. discriminate H. Qed.

Lemma init_outcome_witness :
  0 <= 0 /\
  exists self,
    __init__ 0 zeros = Ok self /\
    NumPy.len (_npa self) = 2 * 0 /\ max_size self = 0 /\ _index self = 0.
Proof. split; [lia | apply (proj1 (init_outcome 0 zeros)); lia]. Defined.

Lemma isFull_until_clear_witness :
  eval isFull demo = Ok true /\
  eval isFull
    (perform_all [SetItem (PyInt 0) 7; Append 8; GetItem (PyInt (-9))] demo) =
    Ok true.
Proof.
  assert (eval isFull demo = Ok true) as H by reflexivity.
  split; [exact H|].
  apply (proj1 (proj2 (proj2 (proj2 (isFull_until_clear (T:=Z)))))); [exact H|].
  repeat constructor.
Defined.

Lemma clear_resets_counter_only_witness :
  wf demo /\ eval (clear;; append 9;; __getattr__target) demo = Ok [9].
Proof.
  split; [exact demo_wf|].
  destruct (clear_resets_counter_only demo demo_wf) as (_ & _ & _ & H).
  apply (H 9).
Defined.

Lemma wrapped_range_write_is_dropped_witness :
  wf demo /\ 0 < default 1 None /\
  (0 + _index demo) mod max_size demo > (2 + _index demo) mod max_size demo /\
  __setitem__ (PySlice (range 0 2)) 9 demo = (Ok tt, demo).
Proof.
  split; [exact demo_wf|]. split; [simpl; lia|]. split; [vm_compute; reflexivity|].
  apply (wrapped_range_write_is_dropped demo 0 2 None 9 demo_wf);
    [simpl; lia | vm_compute; reflexivity].
Defined.

Lemma seq_write_with_slice_fails_witness :
  wf demo /\
  (exists sl, PySlice sl ∈ [PyInt 0; PySlice (range 0 2); PyInt 1]) /\
  exists self',
    __setitem__ (PySeq [PyInt 0; PySlice (range 0 2); PyInt 1]) 9 demo =
      (Raise AttributeError, self').
Proof.
  assert (exists sl, PySlice sl ∈ [PyInt 0; PySlice (range 0 2); PyInt 1]) as Hsl.
  { exists (range 0 2). apply elem_of_cons. right. apply elem_of_cons. by left. }
  split; [exact demo_wf|]. split; [exact Hsl|].
  destruct (seq_write_with_slice_fails demo _ 9 demo_wf Hsl)
    as (pre & sl & post & self' & _ & _ & Hrun & _).
  exists self'. exact Hrun.
Defined.

(** The failed write of the witness above has changed the store. *)
Example seq_write_not_atomic :
  __setitem__ (PySeq [PyInt 0; PySlice (range 0 2); PyInt 1]) 9 demo =
    (Raise AttributeError,
     {| _npa := [4; 5; 9; 4; 5; 9]; max_size := 3; _index := 5 |}).
Proof. reflexivity. Qed.

(** Witnesses of the further properties. *)

Lemma demo_mirrored (s : nat) : Z.of_nat s < max_size demo -> mirrored demo s.
Proof.
  intros Hs. destruct s as [|[|[|s]]];
    [eexists; split; reflexivity.. | simpl in Hs; lia].
Defined.

Lemma elements_when_full_witness :
  0 < 3 /\ 3 <= Z.of_nat (length [1; 2; 3; 4]) /\
  exists self0,
    __init__ 3 zeros = Ok self0 /\
    eval (appends [1; 2; 3; 4];; getElements) self0 = Ok [2; 3; 4].
Proof.
  split; [lia|]. split; [simpl; lia|].
  apply (elements_when_full 3 zeros [1; 2; 3; 4]); simpl; lia.
Defined.

Lemma elements_before_full_layout_witness :
  Z.of_nat (length [7]) < 3 /\
  exists self0,
    __init__ 3 count = Ok self0 /\
    eval (appends [7];; getElements) self0 = Ok [1; 2; 7].
Proof.
  split; [simpl; lia|].
  apply (elements_before_full_layout 3 count [7]); simpl; lia.
Defined.

Lemma index_read_when_full_witness :
  0 < 3 /\ 3 <= Z.of_nat (length [1; 2; 3; 4]) /\ 0 <= 0 < 3 /\
  exists self0,
    __init__ 3 zeros = Ok self0 /\
    eval (appends [1; 2; 3; 4];; __getitem__ (PyInt 0)) self0 = Ok (Scalar 2).
Proof.
  split; [lia|]. split; [simpl; lia|]. split; [lia|].
  destruct (index_read_when_full 3 zeros [1; 2; 3; 4])
    as (self0 & Hinit & Hread & _); [simpl; lia..|].
  exists self0. split; [exact Hinit|].
  destruct (Hread 0 ltac:(lia)) as (x & Hx & ->).
  simpl in Hx. by injection Hx as <-.
Defined.

Lemma range_read_when_full_witness :
  0 < 3 /\ 3 <= Z.of_nat (length [1; 2; 3; 4]) /\ 0 <= 1 <= 5 /\
  exists self0,
    __init__ 3 zeros = Ok self0 /\
    eval (appends [1; 2; 3; 4];; __getitem__ (PySlice (range 1 5))) self0 =
      Ok (Array [3; 4]).
Proof.
  split; [lia|]. split; [simpl; lia|]. split; [lia|].
  apply (range_read_when_full 3 zeros [1; 2; 3; 4] 1 5); simpl; lia.
Defined.

Lemma index_write_then_read_witness :
  wf demo /\ - max_size demo <= -1 < max_size demo /\
  eval (__setitem__ (PyInt (-1)) 9;; __getitem__ (PyInt (-1))) demo =
    Ok (Scalar 9).
Proof.
  split; [exact demo_wf|]. split; [simpl; lia|].
  apply (index_write_then_read demo (-1) 9 demo_wf). simpl; lia.
Defined.

Lemma index_write_wraps_witness :
  wf demo /\
  __setitem__ (PyInt (1 + 2 * max_size demo)) 9 demo =
    __setitem__ (PyInt 1) 9 demo.
Proof.
  split; [exact demo_wf|]. apply (index_write_wraps demo 1 2 9 demo_wf).
Defined.

Lemma seq_write_then_read_witness :
  wf demo /\
  Forall (fun o => is_slice o = false) [PyInt 0; PyOther; PyInt 2] /\
  exists self',
    __setitem__ (PySeq [PyInt 0; PyOther; PyInt 2]) 9 demo = (Ok tt, self') /\
    __getitem__ (PyInt 2) self' = (Ok (Scalar 9), self').
Proof.
  assert (Forall (fun o => is_slice o = false) [PyInt 0; PyOther; PyInt 2])
    as Hl by (repeat constructor).
  split; [exact demo_wf|]. split; [exact Hl|].
  destruct (seq_write_then_read demo _ 9 demo_wf Hl) as (self' & Hrun & Hread).
  exists self'. split; [exact Hrun|].
  apply Hread; [|simpl; lia].
  apply elem_of_cons. right. apply elem_of_cons. right.
  apply elem_of_cons. by left.
Defined.

Lemma range_write_effect_witness :
  wf demo /\
  (1 + _index demo) mod max_size demo <= (2 + _index demo) mod max_size demo /\
  exists self',
    __setitem__ (PySlice (range 1 2)) 9 demo = (Ok tt, self') /\
    _npa self' !! 0%nat = Some 9 /\ _npa self' !! 1%nat = Some 5.
Proof.
  assert ((1 + _index demo) mod max_size demo <=
          (2 + _index demo) mod max_size demo) as Hab by (vm_compute; discriminate).
  split; [exact demo_wf|]. split; [exact Hab|].
  destruct (range_write_effect demo 1 2 9 demo_wf Hab)
    as (self' & Hrun & _ & _ & _ & Hstore).
  exists self'. split; [exact Hrun|]. split.
  - destruct (Hstore 0%nat ltac:(vm_compute; reflexivity)) as [Hin _].
    apply Hin. split; [vm_compute; discriminate | vm_compute; reflexivity].
  - destruct (Hstore 1%nat ltac:(vm_compute; reflexivity)) as [_ Hout].
    rewrite Hout; [reflexivity|].
    vm_compute. intros [_ H]. discriminate H.
Defined.

Lemma range_write_then_read_witness :
  wf demo /\
  (1 + _index demo) mod max_size demo <= (2 + _index demo) mod max_size demo /\
  2 - 1 < max_size demo /\ 1 <= 1 < 2 /\ - max_size demo <= 1 < max_size demo /\
  eval (__setitem__ (PySlice (range 1 2)) 9;; __getitem__ (PyInt 1)) demo =
    Ok (Scalar 9).
Proof.
  assert ((1 + _index demo) mod max_size demo <=
          (2 + _index demo) mod max_size demo) as Hab by (vm_compute; discriminate).
  split; [exact demo_wf|]. split; [exact Hab|]. split; [simpl; lia|].
  split; [lia|]. split; [simpl; lia|].
  apply (range_write_then_read demo 1 2 1 9 demo_wf Hab); simpl; lia.
Defined.

Lemma range_write_same_slot_is_dropped_witness :
  wf demo /\ default 1 (Some (-1)) <> 0 /\
  (default 0 (Some 1) + _index demo) mod max_size demo =
    (default 0 (Some 4) + _index demo) mod max_size demo /\
  __setitem__ (PySlice (NumPy.Slice (Some 1) (Some 4) (Some (-1)))) 9 demo =
    (Ok tt, demo).
Proof.
  split; [exact demo_wf|]. split; [simpl; lia|]. split; [reflexivity|].
  apply (range_write_same_slot_is_dropped demo (Some 1) (Some 4) (Some (-1)) 9
           demo_wf); [simpl; lia | reflexivity].
Defined.

Lemma append_slides_window_witness :
  wf demo /\
  (forall s : nat, Z.of_nat s < max_size demo -> mirrored demo s) /\
  eval (append 6;; getElements) demo = Ok [4; 5; 6].
Proof.
  split; [exact demo_wf|]. split; [exact demo_mirrored|].
  destruct (append_slides_window demo 6 demo_wf demo_mirrored)
    as (view & Hview & ->).
  vm_compute in Hview. injection Hview as <-. reflexivity.
Defined.

Lemma len_after_calls_witness :
  0 < 2 /\
  exists self0,
    __init__ 2 count = Ok self0 /\
    eval __len__
      (perform_all
         [Append 5; SetItem (PyInt 7) 1; Clear; Append 6; Append 7; Append 8]
         self0) = Ok 2.
Proof.
  split; [lia|].
  apply (len_after_calls 2 count
           [Append 5; SetItem (PyInt 7) 1; Clear; Append 6; Append 7; Append 8]).
  lia.
Defined.

Lemma reduction_after_calls_witness :
  0 < 2 /\
  Forall (fun cl => is_write cl = false)
    [Append 5; Clear; Append 6; GetElements; Append 7; Append 8] /\
  exists self0,
    __init__ 2 count = Ok self0 /\
    eval (__getattr__ sum)
      (perform_all [Append 5; Clear; Append 6; GetElements; Append 7; Append 8]
         self0) = Ok 15.
Proof.
  assert (Forall (fun cl : call (T:=Z) => is_write cl = false)
            [Append 5; Clear; Append 6; GetElements; Append 7; Append 8])
    as Hcs by (repeat constructor).
  split; [lia|]. split; [exact Hcs|].
  apply (reduction_after_calls sum 2 count _ ltac:(lia) Hcs).
Defined.

Lemma clear_keeps_data_readable_witness :
  wf demo /\ eval (clear;; getElements) demo = Ok [4; 5; 3].
Proof.
  split; [exact demo_wf|].
  apply (clear_keeps_data_readable demo demo_wf).
Defined.

End Examples.
